(** * Terrain boundary extraction and safe Fourier envelope

    A shallow embedding of the three height-map scripts of
    [afk/utils/heightmap]:

    - [extract_bounds_rgb.py]  (module [RGB]): exact boundary extraction by
      the transparent-above / opaque-below rule, followed by the
      three-harmonic Fourier fit and the safety-margin shift;
    - [extract_bounds_fast.py] (module [Fast]): topmost opaque pixel of every
      tenth column of a PGM alpha channel, with the reader of the PGM file;
    - [extract_bounds.py]      (module [Simple]): the same through a per-pixel
      alpha query, with the reading of the alpha out of the answer.

    Python integers are [Z]; the [float64] values of numpy are idealised as
    real numbers ([R]), so rounding is not part of the model of module
    [RGB].  Module [F64] evaluates the curve model in binary64 itself, for
    the one property where the idealisation decides the answer.  Python
    exceptions are the left summand of [Py.result]. *)

From Stdlib Require Import ZArith List Bool Lia Reals Lra QArith.
From Stdlib Require Strings.Byte Strings.Ascii Strings.String.
From Stdlib Require Floats.
From Stdlib Require Import Sorted.
Import ListNotations.
Local Open Scope Z_scope.

(** ** The pieces of the Python runtime the scripts rely on *)

Module Py.

Inductive exn : Set := ValueError | TypeError | IndexError.

Definition result (A : Type) : Type := (exn + A)%type.

Definition ret {A : Type} (a : A) : result A := inr a.

Definition raise {A : Type} (e : exn) : result A := inl e.

Definition bind {A B : Type} (m : result A) (k : A -> result B) : result B :=
  match m with
  | inl e => inl e
  | inr a => k a
  end.

(** [range(n)] *)
Definition range (n : Z) : list Z := map Z.of_nat (seq 0 (Z.to_nat n)).

(** [range(start, stop, step)] for a positive [step]: its length is
    [max(0, (stop - start + step - 1) // step)]. *)
Definition range_step (start stop step : Z) : list Z :=
  map (fun i => start + step * Z.of_nat i)
      (seq 0 (Z.to_nat ((stop - start + step - 1) / step))).

(** [l[i]] on a sequence: negative indices count from the end, anything
    outside raises [IndexError]. *)
Definition getitem {A : Type} (l : list A) (i : Z) : result A :=
  let n := Z.of_nat (length l) in
  let j := if i <? 0 then i + n else i in
  if (0 <=? j) && (j <? n) then
    match nth_error l (Z.to_nat j) with
    | Some a => ret a
    | None => raise IndexError
    end
  else raise IndexError.

(** [d[k] = v] on a dict with integer keys: an existing key keeps its place
    and takes the new value, a new key goes to the end. *)
Fixpoint setitem {V : Type} (d : list (Z * V)) (k : Z) (v : V) : list (Z * V) :=
  match d with
  | [] => [(k, v)]
  | (k', v') :: d' =>
      if k =? k' then (k, v) :: d' else (k', v') :: setitem d' k v
  end.

(** Monadic traversal of a list, left to right. *)
Fixpoint mapM {A B : Type} (f : A -> result B) (l : list A) : result (list B) :=
  match l with
  | [] => ret []
  | a :: l' =>
      bind (f a) (fun b => bind (mapM f l') (fun bs => ret (b :: bs)))
  end.

(** [min(l)] and [max(l)] on a list of integers. *)
Definition min (l : list Z) : result Z :=
  match l with
  | [] => raise ValueError
  | v :: vs => ret (fold_left Z.min vs v)
  end.

Definition max (l : list Z) : result Z :=
  match l with
  | [] => raise ValueError
  | v :: vs => ret (fold_left Z.max vs v)
  end.

(** *** Bytes: the methods the PGM reader uses *)

(** ASCII whitespace, as [bytes.split()], [bytes.strip()] and [int()] see
    it: space, tab, newline, return, vertical tab, form feed. *)
Definition isspace (b : Byte.byte) : bool :=
  match b with
  | Byte.x09 | Byte.x0a | Byte.x0b | Byte.x0c | Byte.x0d | Byte.x20 => true
  | _ => false
  end.

(** [f.readline()] on a binary file whose unread content is [f]: the line
    up to and including the first newline (or all that is left), and what
    remains unread.  At end of file the line is empty. *)
Fixpoint readline (f : list Byte.byte) : list Byte.byte * list Byte.byte :=
  match f with
  | [] => ([], [])
  | b :: f' =>
      if Byte.eqb b Byte.x0a then ([b], f')
      else let (line, rest) := readline f' in (b :: line, rest)
  end.

(** [line.startswith(b'#')] *)
Definition startswith_hash (line : list Byte.byte) : bool :=
  match line with
  | b :: _ => Byte.eqb b Byte.x23
  | [] => false
  end.

(** [line.split()]: the maximal runs of non-whitespace bytes.  [cur] is
    the run being read, last byte first. *)
Fixpoint split_from (cur : list Byte.byte) (l : list Byte.byte)
    : list (list Byte.byte) :=
  match l with
  | [] => match cur with [] => [] | _ => [rev cur] end
  | b :: l' =>
      if isspace b then
        match cur with
        | [] => split_from [] l'
        | _ => rev cur :: split_from [] l'
        end
      else split_from (b :: cur) l'
  end.

Definition split (l : list Byte.byte) : list (list Byte.byte) := split_from [] l.

(** [line.strip()] *)
Fixpoint lstrip (l : list Byte.byte) : list Byte.byte :=
  match l with
  | b :: l' => if isspace b then lstrip l' else l
  | [] => []
  end.

Definition rstrip (l : list Byte.byte) : list Byte.byte := rev (lstrip (rev l)).

Definition strip (l : list Byte.byte) : list Byte.byte := rstrip (lstrip l).

Definition digit (b : Byte.byte) : option Z :=
  match b with
  | Byte.x30 => Some 0 | Byte.x31 => Some 1 | Byte.x32 => Some 2
  | Byte.x33 => Some 3 | Byte.x34 => Some 4 | Byte.x35 => Some 5
  | Byte.x36 => Some 6 | Byte.x37 => Some 7 | Byte.x38 => Some 8
  | Byte.x39 => Some 9
  | _ => None
  end.

(** The digits of a decimal literal, single underscores allowed between
    them: the value read so far, the number of digits, and whether the
    last byte was an underscore. *)
Fixpoint int_digits (acc : Z) (count : nat) (underscore : bool)
    (l : list Byte.byte) : option (Z * nat) :=
  match l with
  | [] => if underscore then None else Some (acc, count)
  | b :: l' =>
      match digit b with
      | Some d => int_digits (10 * acc + d) (S count) false l'
      | None =>
          if Byte.eqb b Byte.x5f then
            if underscore then None else int_digits acc count true l'
          else None
      end
  end.

(** [int(s)] on bytes, base ten: surrounding whitespace, an optional sign,
    then digits starting with a digit.  More than 4300 digits are refused
    (the interpreter's default limit on integer string conversion).  Every
    failure is a [ValueError]. *)
Definition int (s : list Byte.byte) : result Z :=
  let s := strip s in
  let (negative, body) :=
    match s with
    | Byte.x2d :: r => (true, r)
    | Byte.x2b :: r => (false, r)
    | _ => (false, s)
    end in
  match body with
  | [] => raise ValueError
  | b :: _ =>
      match digit b with
      | None => raise ValueError
      | Some _ =>
          match int_digits 0 0 false body with
          | Some (v, n) =>
              if (4300 <? n)%nat then raise ValueError
              else ret (if negative then - v else v)
          | None => raise ValueError
          end
      end
  end.

End Py.

Notation "x <- m ;; k" := (Py.bind m (fun x => k))
  (at level 61, m at next level, right associativity).

(** The statistics each script prints after saving its result:
    [min(y_values)], [max(y_values)] and their difference. *)
Definition stats (y_values : list Z) : Py.result (Z * Z * Z) :=
  lo <- Py.min y_values ;;
  hi <- Py.max y_values ;;
  hi' <- Py.max y_values ;;
  lo' <- Py.min y_values ;;
  Py.ret (lo, hi, hi' - lo').

(** ** extract_bounds_rgb.py *)

Module RGB.

(** A pixel as [img.getpixel] returns it: the tuple of its channel values. *)
Definition pixel : Set := list Z.

(** What the script uses of a PIL image. *)
Record Image : Type := {
  size : Z * Z;
  getpixel : Z * Z -> pixel
}.

(** An entry [{"x": x, "y": y}] of [terrain_curve]. *)
Record point : Set := Pt { pt_x : Z; pt_y : Z }.

Section Extraction.

Variable ALPHA_THRESHOLD : Z.

Definition is_transparent (p : pixel) : bool :=
  match p with
  | [r; g; b; a] => a <=? ALPHA_THRESHOLD
  | _ => false
  end.

Definition is_opaque (p : pixel) : bool :=
  match p with
  | [r; g; b; a] => a >? ALPHA_THRESHOLD
  | _ => true
  end.

(** The first inner loop: [for y in range(height - 1)] with its [break];
    the result is [boundary_y]. *)
Fixpoint find_boundary (img : Image) (x : Z) (ys : list Z) : option Z :=
  match ys with
  | [] => None
  | y :: ys' =>
      let pixel_current := getpixel img (x, y) in
      let pixel_below := getpixel img (x, y + 1) in
      if is_transparent pixel_current && is_opaque pixel_below
      then Some (y + 1)
      else find_boundary img x ys'
  end.

(** The fallback loop: [for y in range(height)], appending the first opaque
    row and breaking; it has no [else] branch. *)
Fixpoint first_opaque (img : Image) (x : Z) (ys : list Z)
    (terrain_curve : list point) : list point :=
  match ys with
  | [] => terrain_curve
  | y :: ys' =>
      if is_opaque (getpixel img (x, y))
      then terrain_curve ++ [Pt x y]
      else first_opaque img x ys' terrain_curve
  end.

(** One iteration of [for x in range(width)]. *)
Definition scan_column (img : Image) (terrain_curve : list point) (x : Z)
    : list point :=
  let height := snd (size img) in
  match find_boundary img x (Py.range (height - 1)) with
  | Some boundary_y => terrain_curve ++ [Pt x boundary_y]
  | None => first_opaque img x (Py.range height) terrain_curve
  end.

(** [terrain_curve] as it stands after the column loop. *)
Definition terrain_curve (img : Image) : list point :=
  let width := fst (size img) in
  fold_left (scan_column img) (Py.range width) [].

End Extraction.

(** The module constant of the script. *)
Definition ALPHA_THRESHOLD : Z := 50.

(** *** The safe boundary curve (second half of [main]) *)

Local Open Scope R_scope.

(** The model function handed to [curve_fit]; [width] is the variable of
    [main] it closes over.  This is the function over the real numbers;
    [F64.fourier_curve] below is its binary64 evaluation. *)
Definition fourier_curve (width : R) (x a0 a1 b1 a2 b2 a3 b3 : R) : R :=
  let freq := 2 * PI / width in
  a0 +
  a1 * cos (freq * x) + b1 * sin (freq * x) +
  a2 * cos (2 * freq * x) + b2 * sin (2 * freq * x) +
  a3 * cos (3 * freq * x) + b3 * sin (3 * freq * x).

(** [fourier_curve(x_data, *params)]: the call unpacks the parameter array
    into the seven coefficients (any other length is a [TypeError]) and numpy
    evaluates the model at every abscissa. *)
Definition fourier_curve_star (width : R) (x_data params : list R)
    : Py.result (list R) :=
  match params with
  | [a0; a1; b1; a2; b2; a3; b3] =>
      Py.ret (map (fun x => fourier_curve width x a0 a1 b1 a2 b2 a3 b3) x_data)
  | _ => Py.raise Py.TypeError
  end.

(** [u <= v] as a truth value. *)
Definition Rleb (u v : R) : bool := if Rle_dec u v then true else false.

(** Element-wise [a - b] and [a <= b] of two arrays of one shape. *)
Definition arr_sub (a b : list R) : list R :=
  map (fun uv => fst uv - snd uv) (combine a b).

Definition arr_le (a b : list R) : list bool :=
  map (fun uv => Rleb (fst uv) (snd uv)) (combine a b).

(** [np.max], [np.min] (a zero-size array raises [ValueError]) and [np.all]. *)
Definition np_max (a : list R) : Py.result R :=
  match a with
  | [] => Py.raise Py.ValueError
  | v :: vs => Py.ret (fold_left Rmax vs v)
  end.

Definition np_min (a : list R) : Py.result R :=
  match a with
  | [] => Py.raise Py.ValueError
  | v :: vs => Py.ret (fold_left Rmin vs v)
  end.

Definition np_all (a : list bool) : bool := forallb (fun b => b) a.

(** [a[0] -= v] on an array. *)
Definition isub_at_0 (a : list R) (v : R) : Py.result (list R) :=
  match a with
  | [] => Py.raise Py.IndexError
  | a0 :: rest => Py.ret ((a0 - v) :: rest)
  end.

(** What the script reports about the safe curve. *)
Record SafeBoundary : Type := {
  max_error : R;
  safety_margin : R;
  safe_params : list R;
  y_safe : list R;
  min_clearance : R;
  max_clearance : R;
  all_above : bool
}.

(** Lines 123-124: the report of the fitted parameters reads [params[0]]
    to [params[6]], in this order, before the curve is evaluated. *)
Definition fitted_parameters (params : list R) : Py.result unit :=
  _ <- Py.getitem params 0%Z ;;
  _ <- Py.getitem params 1%Z ;;
  _ <- Py.getitem params 2%Z ;;
  _ <- Py.getitem params 3%Z ;;
  _ <- Py.getitem params 4%Z ;;
  _ <- Py.getitem params 5%Z ;;
  _ <- Py.getitem params 6%Z ;;
  Py.ret tt.

(** Lines 106-146 of [main], from the fitted [params] on. *)
Definition safe_boundary (width : Z) (terrain_curve : list point)
    (params : list R) : Py.result SafeBoundary :=
  let x_data := map (fun p => IZR (pt_x p)) terrain_curve in
  let y_data := map (fun p => IZR (pt_y p)) terrain_curve in
  _ <- fitted_parameters params ;;
  y_fitted <- fourier_curve_star (IZR width) x_data params ;;
  max_error <- np_max (arr_sub y_data y_fitted) ;;
  let safety_margin := max_error + 5 in
  safe_params <- isub_at_0 params safety_margin ;;
  y_safe <- fourier_curve_star (IZR width) x_data safe_params ;;
  min_clearance <- np_min (arr_sub y_data y_safe) ;;
  max_clearance <- np_max (arr_sub y_data y_safe) ;;
  Py.ret {| max_error := max_error;
            safety_margin := safety_margin;
            safe_params := safe_params;
            y_safe := y_safe;
            min_clearance := min_clearance;
            max_clearance := max_clearance;
            all_above := np_all (arr_le y_safe y_data) |}.

(** [main] as a whole.  [curve_fit] is scipy's least-squares solver, which
    is not part of the repository: it is a parameter, given the model
    function and the data and returning the fitted coefficient array. *)
Section Main.

Variable curve_fit :
  (R -> R -> R -> R -> R -> R -> R -> R -> R) -> list R -> list R ->
  Py.result (list R).

Definition main (img : Image) : Py.result (list point * SafeBoundary) :=
  let width := fst (size img) in
  let curve := terrain_curve ALPHA_THRESHOLD img in
  let y_values := map pt_y curve in
  _ <- Py.min y_values ;;
  _ <- Py.max y_values ;;
  let x_data := map (fun p => IZR (pt_x p)) curve in
  let y_data := map (fun p => IZR (pt_y p)) curve in
  params <- curve_fit (fourier_curve (IZR width)) x_data y_data ;;
  safe <- safe_boundary width curve params ;;
  Py.ret (curve, safe).

End Main.

(** The objective [curve_fit] minimises over the seven coefficients: the
    sum of the squared residuals of the model against the data. *)
Definition sum_of_squares (width : Z) (terrain_curve : list point)
    (a0 a1 b1 a2 b2 a3 b3 : R) : R :=
  fold_right Rplus 0
    (map (fun p => Rsqr (IZR (pt_y p) -
                         fourier_curve (IZR width) (IZR (pt_x p))
                                       a0 a1 b1 a2 b2 a3 b3))
         terrain_curve).

End RGB.

(** ** The curve model in binary64 *)

(** [fourier_curve] of extract_bounds_rgb.py (lines 111-117) as numpy
    evaluates it on [float64] scalars: every [*], [/] and [+] is the IEEE 754
    operation, in the order Python associates them. *)
Module F64.

Import Floats.
Local Open Scope float_scope.

(** [np.pi], the binary64 number nearest to pi. *)
Definition np_pi : float := 0x1.921fb54442d18p+1.

Section Kernels.

(** What [np.cos] and [np.sin] return on a finite argument comes from the
    platform's mathematical library and is left open. *)
Variables cos_finite sin_finite : float -> float.

(** [np.cos]: not-a-number on an infinite or not-a-number argument (with a
    [RuntimeWarning], not an exception). *)
Definition np_cos (t : float) : float :=
  if is_nan t || is_infinity t then nan else cos_finite t.

(** [np.sin], likewise. *)
Definition np_sin (t : float) : float :=
  if is_nan t || is_infinity t then nan else sin_finite t.

Definition fourier_curve (width : float) (x a0 a1 b1 a2 b2 a3 b3 : float)
    : float :=
  let freq := 2 * np_pi / width in
  a0 +
  a1 * np_cos (freq * x) + b1 * np_sin (freq * x) +
  a2 * np_cos (2 * freq * x) + b2 * np_sin (2 * freq * x) +
  a3 * np_cos (3 * freq * x) + b3 * np_sin (3 * freq * x).

End Kernels.

End F64.

(** ** extract_bounds_fast.py *)

Module Fast.

Definition SAMPLE_INTERVAL : Z := 10.
Definition ALPHA_THRESHOLD : Z := 128.

(** [pixels[idx]] on the bytes read from the PGM file: an [int] in 0..255. *)
Definition byte_at (pixels : list Byte.byte) (idx : Z) : Py.result Z :=
  b <- Py.getitem pixels idx ;;
  Py.ret (Z.of_N (Byte.to_N b)).

(** The 2D array [alpha], row by row; a file shorter than [width * height]
    bytes makes [pixels[idx]] raise [IndexError]. *)
Definition build_alpha (width height : Z) (pixels : list Byte.byte)
    : Py.result (list (list Z)) :=
  Py.mapM
    (fun y => Py.mapM (fun x => let idx := y * width + x in byte_at pixels idx)
                      (Py.range width))
    (Py.range height).

(** [alpha[y][x]] evaluates to [a]. *)
Definition cell (alpha : list (list Z)) (y x a : Z) : Prop :=
  exists row, Py.getitem alpha y = inr row /\ Py.getitem row x = inr a.

(** The scan of one column: [for y in range(height)] with its [break], from
    the default [top_y]. *)
Fixpoint find_top (alpha : list (list Z)) (x : Z) (ys : list Z) (top_y : Z)
    : Py.result Z :=
  match ys with
  | [] => Py.ret top_y
  | y :: ys' =>
      row <- Py.getitem alpha y ;;
      a <- Py.getitem row x ;;
      if a >? ALPHA_THRESHOLD then Py.ret y else find_top alpha x ys' top_y
  end.

(** [for x in range(0, width, SAMPLE_INTERVAL)], threading the dict.  The
    progress line printed for each column (line 59) is not part of the
    model: it turns [x] and [top_y] into text, which Python does for
    integers of at most 4300 digits. *)
Fixpoint sample (alpha : list (list Z)) (height : Z) (xs : list Z)
    (heightmap : list (Z * Z)) : Py.result (list (Z * Z)) :=
  match xs with
  | [] => Py.ret heightmap
  | x :: xs' =>
      top_y <- find_top alpha x (Py.range height) (height - 1) ;;
      sample alpha height xs' (Py.setitem heightmap x top_y)
  end.

(** The dict [heightmap] of [main], from the header's dimensions and the
    pixel bytes. *)
Definition heightmap (width height : Z) (pixels : list Byte.byte)
    : Py.result (list (Z * Z)) :=
  alpha <- build_alpha width height pixels ;;
  sample alpha height (Py.range_step 0 width SAMPLE_INTERVAL) [].

(** *** The PGM file *)

(** [while line.startswith(b'#'): line = f.readline()].  Every turn of the
    loop reads at least one byte or meets the end of the file, where the
    line is empty and the loop stops: [fuel] bounds the turns and the file
    length is enough of it. *)
Fixpoint skip_comments (fuel : nat) (line f : list Byte.byte)
    : list Byte.byte * list Byte.byte :=
  match fuel with
  | O => (line, f)
  | S fuel' =>
      if Py.startswith_hash line
      then let (line', f') := Py.readline f in skip_comments fuel' line' f'
      else (line, f)
  end.

(** [width, height = map(int, line.split())]: anything but two integer
    tokens is a [ValueError], from [int] or from the unpacking. *)
Definition parse_dims (line : list Byte.byte) : Py.result (Z * Z) :=
  match Py.split line with
  | [tw; th] =>
      width <- Py.int tw ;;
      height <- Py.int th ;;
      Py.ret (width, height)
  | _ => Py.raise Py.ValueError
  end.

(** The [with open(...)] block: magic line (read, never looked at), comment
    lines, dimensions, maximal value, and the rest of the file as pixels. *)
Definition read_header (f : list Byte.byte)
    : Py.result (Z * Z * Z * list Byte.byte) :=
  let (magic, f1) := Py.readline f in
  let (line, f2) := Py.readline f1 in
  let (dims, f3) := skip_comments (S (length f2)) line f2 in
  wh <- parse_dims dims ;;
  let (maxline, f4) := Py.readline f3 in
  max_val <- Py.int (Py.strip maxline) ;;
  Py.ret (fst wh, snd wh, max_val, f4).

(** [main], from the bytes of the file to the dict and the statistics. *)
Definition main (f : list Byte.byte)
    : Py.result (list (Z * Z) * (Z * Z * Z)) :=
  hdr <- read_header f ;;
  let '(width, height, max_val, pixels) := hdr in
  hm <- heightmap width height pixels ;;
  st <- stats (map snd hm) ;;
  Py.ret (hm, st).

End Fast.

(** ** extract_bounds.py *)

Module Simple.

Definition WIDTH : Z := 640.
Definition HEIGHT : Z := 384.
Definition SAMPLE_INTERVAL : Z := 10.

Section Query.

(** [get_pixel_alpha] asks ImageMagick for one pixel through a subprocess;
    the answer it parses is a parameter here. *)
Variable get_pixel_alpha : Z -> Z -> Q.

(** [for y in range(HEIGHT)] returning at the first [alpha > 0.5]. *)
Fixpoint scan_down (x : Z) (ys : list Z) : option Z :=
  match ys with
  | [] => None
  | y :: ys' =>
      let alpha := get_pixel_alpha x y in
      if negb (Qle_bool alpha (1 # 2)) then Some y else scan_down x ys'
  end.

Definition find_top_opaque_pixel (x : Z) : Z :=
  match scan_down x (Py.range HEIGHT) with
  | Some y => y
  | None => HEIGHT - 1
  end.

(** The dict [heightmap] of [main]. *)
Definition heightmap : list (Z * Z) :=
  fold_left (fun hm x => let top_y := find_top_opaque_pixel x in
                         Py.setitem hm x top_y)
            (Py.range_step 0 WIDTH SAMPLE_INTERVAL) [].

End Query.

(** [main]: the dict and the statistics printed after it. *)
Definition main (get_pixel_alpha : Z -> Z -> Q)
    : Py.result (list (Z * Z) * (Z * Z * Z)) :=
  let hm := heightmap get_pixel_alpha in
  st <- stats (map snd hm) ;;
  Py.ret (hm, st).

(** *** Reading the alpha out of ImageMagick's answer *)

Import Ascii String.

(** ['rgba' in pixel_data] and the like: substring test. *)
Fixpoint contains (needle hay : String.string) : bool :=
  match hay with
  | String.EmptyString => String.prefix needle hay
  | String.String _ hay' => String.prefix needle hay || contains needle hay'
  end.

(** [s.split(sep)] for a one-character separator: never empty. *)
Fixpoint split_on (sep : Ascii.ascii) (s : String.string) : list String.string :=
  match s with
  | String.EmptyString => [String.EmptyString]
  | String.String c s' =>
      if Ascii.eqb c sep then String.EmptyString :: split_on sep s'
      else match split_on sep s' with
           | h :: t => String.String c h :: t
           | [] => [String.String c String.EmptyString]
           end
  end.

(** [s.strip(c)] for a one-character set. *)
Fixpoint lstrip_char (c : Ascii.ascii) (s : String.string) : String.string :=
  match s with
  | String.String c' s' => if Ascii.eqb c' c then lstrip_char c s' else s
  | String.EmptyString => String.EmptyString
  end.

Fixpoint rstrip_char (c : Ascii.ascii) (s : String.string) : String.string :=
  match s with
  | String.EmptyString => String.EmptyString
  | String.String c' s' =>
      match rstrip_char c s' with
      | String.EmptyString =>
          if Ascii.eqb c' c then String.EmptyString
          else String.String c' String.EmptyString
      | r => String.String c' r
      end
  end.

Definition strip_char (c : Ascii.ascii) (s : String.string) : String.string :=
  rstrip_char c (lstrip_char c s).

Section Parse.

(** [float] is the interpreter's conversion from text, with the type of
    its values and the value [0.0]; it may raise. *)
Variable F : Type.
Variable float : String.string -> Py.result F.
Variable zero : F.

(** Lines 21-25 of [get_pixel_alpha], on the stripped output of the
    subprocess. *)
Definition parse_alpha (pixel_data : String.string) : Py.result F :=
  if contains "rgba"%string pixel_data then
    let alpha :=
      strip_char ")"%char
                 (last (split_on ","%char pixel_data) String.EmptyString) in
    float alpha
  else Py.ret zero.

End Parse.

End Simple.

(** ** Boundary rows reported by the scripts *)

(** [emitted H y]: one of the three scripts, run on a grid of height [H],
    reports [y] as the boundary row of some column. *)
Inductive emitted : Z -> Z -> Prop :=
| emitted_rgb (thr : Z) (img : RGB.Image) (p : RGB.point) :
    In p (RGB.terrain_curve thr img) ->
    emitted (snd (RGB.size img)) (RGB.pt_y p)
| emitted_fast (w h : Z) (pixels : list Byte.byte) (hm : list (Z * Z)) (x y : Z) :
    Fast.heightmap w h pixels = inr hm ->
    In (x, y) hm ->
    emitted h y
| emitted_simple (get_pixel_alpha : Z -> Z -> Q) (x y : Z) :
    In (x, y) (Simple.heightmap get_pixel_alpha) ->
    emitted Simple.HEIGHT y.

(** ** Concrete inputs *)

Module Inputs.

(** An RGBA image of one colour whose alpha channel is [alpha x y]. *)
Definition rgba_image (width height : Z) (alpha : Z -> Z -> Z) : RGB.Image :=
  {| RGB.size := (width, height);
     RGB.getpixel := fun xy => [0; 0; 0; alpha (fst xy) (snd xy)] |}.

(** One column, four rows: transparent, transparent, opaque, opaque. *)
Definition column_ttoo : RGB.Image :=
  rgba_image 1 4 (fun _ y => if y <? 2 then 0 else 255).

(** Three columns, two rows; the middle column is entirely transparent,
    the left one is opaque in its bottom row, the right one is opaque. *)
Definition gap_image : RGB.Image :=
  rgba_image 3 2 (fun x y =>
    if x =? 1 then 0 else if (x =? 0) && (y =? 0) then 0 else 255).

(** One entirely transparent column of height three, as an RGBA image and
    as the bytes of a PGM alpha channel. *)
Definition clear_column : RGB.Image := rgba_image 1 3 (fun _ _ => 0).

Definition clear_column_bytes : list Byte.byte :=
  [Byte.x00; Byte.x00; Byte.x00]%list.

(** Twelve columns, 128 rows: the terrain starts at row 60 in every third
    column and at row 120 elsewhere, [y = 100 - 40 cos(2 pi x / 3)]. *)
Definition spiky_image : RGB.Image :=
  rgba_image 12 128 (fun x y =>
    if y <? (if x mod 3 =? 0 then 60 else 120) then 0 else 255).

Definition spiky_curve : list RGB.point :=
  [RGB.Pt 0 60; RGB.Pt 1 120; RGB.Pt 2 120;
   RGB.Pt 3 60; RGB.Pt 4 120; RGB.Pt 5 120;
   RGB.Pt 6 60; RGB.Pt 7 120; RGB.Pt 8 120;
   RGB.Pt 9 60; RGB.Pt 10 120; RGB.Pt 11 120].

(** The least-squares fit of [spiky_curve]: its mean, without harmonics. *)
Definition spiky_fit : list R := [100; 0; 0; 0; 0; 0; 0]%R.

(** PGM files: [P5], dimensions 2 x 3 (or 0 x 3), maximal value 255; the
    first with a comment line and six bytes of pixels, of which only the
    one of row 2, column 0 is above the threshold. *)
Definition tiny_pgm_pixels : list Byte.byte :=
  [Byte.x00; Byte.x00; Byte.x00; Byte.x00; Byte.xff; Byte.x00]%list.


Definition empty_width_pgm : list Byte.byte :=
  ([Byte.x50; Byte.x35; Byte.x0a] ++
   [Byte.x30; Byte.x20; Byte.x33; Byte.x0a] ++
   [Byte.x32; Byte.x35; Byte.x35; Byte.x0a])%list.

End Inputs.

(** * Properties *)

(** ** Facts about [range] *)

Lemma in_range (n y : Z) : In y (Py.range n) <-> 0 <= y < n.
Proof.
  unfold Py.range. rewrite in_map_iff. split.
  - intros [k [<- Hk]]. apply in_seq in Hk. lia.
  - intros Hy. exists (Z.to_nat y). split; [lia|]. apply in_seq. lia.
Qed.

Lemma range_nonpos (n : Z) : n <= 0 -> Py.range n = [].
Proof.
  intros Hn. unfold Py.range. now replace (Z.to_nat n) with 0%nat by lia.
Qed.

(** A range cut at one of its members: what comes before is the shorter
    range, what comes after is larger. *)
Lemma range_split (n y : Z) :
  0 <= y < n ->
  exists after, Py.range n = Py.range y ++ y :: after /\
                forall z, In z after -> y < z < n.
Proof.
  intros Hy. unfold Py.range.
  replace (Z.to_nat n) with (Z.to_nat y + S (Z.to_nat n - S (Z.to_nat y)))%nat by lia.
  rewrite seq_app, map_app. simpl.
  exists (map Z.of_nat (seq (S (Z.to_nat y)) (Z.to_nat n - S (Z.to_nat y)))).
  split.
  - now rewrite Z2Nat.id by lia.
  - intros z Hz. apply in_map_iff in Hz. destruct Hz as [k [<- Hk]].
    apply in_seq in Hk. lia.
Qed.

(** ** Pixel classification *)

Lemma is_opaque_negb (thr : Z) (p : RGB.pixel) :
  RGB.is_opaque thr p = negb (RGB.is_transparent thr p).
Proof.
  destruct p as [|r [|g [|b [|a [|c q]]]]]; try reflexivity.
  simpl. rewrite Z.gtb_ltb, Z.ltb_antisym. reflexivity.
Qed.

(** C9.  Every pixel is classified as exactly one of opaque and
    transparent: [is_opaque] is the negation of [is_transparent], whatever
    the threshold; and a pixel whose tuple does not have four channels is
    opaque and not transparent, whatever the threshold. *)
Theorem classification_dichotomy (thr : Z) (p : RGB.pixel) :
  RGB.is_opaque thr p = negb (RGB.is_transparent thr p) /\
  (length p <> 4%nat ->
   RGB.is_opaque thr p = true /\ RGB.is_transparent thr p = false).
Proof.
  split; [apply is_opaque_negb|].
  intros Hlen.
  destruct p as [|r [|g [|b [|a [|c q]]]]]; try (split; reflexivity).
  now elim Hlen.
Qed.

Lemma classification_dichotomy_witness :
  RGB.is_opaque RGB.ALPHA_THRESHOLD [12; 34; 56] = true /\
  RGB.is_transparent RGB.ALPHA_THRESHOLD [12; 34; 56] = false.
Proof.
  apply (proj2 (classification_dichotomy RGB.ALPHA_THRESHOLD [12; 34; 56])).
  simpl. discriminate.
Defined.

(** ** Filtering *)

Lemma filter_none {A : Type} (f : A -> bool) (l : list A) :
  (forall a, In a l -> f a = false) -> filter f l = [].
Proof.
  induction l as [|a l IH]; intros H; simpl; [reflexivity|].
  rewrite (H a) by now left. apply IH. intros b Hb. apply H. now right.
Qed.

Lemma filter_all {A : Type} (f : A -> bool) (l : list A) :
  (forall a, In a l -> f a = true) -> filter f l = l.
Proof.
  induction l as [|a l IH]; intros H; simpl; [reflexivity|].
  rewrite (H a) by now left. f_equal. apply IH. intros b Hb. apply H. now right.
Qed.

(** ** The column scan of extract_bounds_rgb.py *)

Section RGBScan.

Variable thr : Z.
Variable img : RGB.Image.

(** The test of the first inner loop at row [y] of column [x]. *)
Let edge (x y : Z) : bool :=
  RGB.is_transparent thr (RGB.getpixel img (x, y)) &&
  RGB.is_opaque thr (RGB.getpixel img (x, y + 1)).

Let opaque (x y : Z) : bool := RGB.is_opaque thr (RGB.getpixel img (x, y)).

Lemma find_boundary_first (x y : Z) (before after : list Z) :
  (forall y', In y' before -> edge x y' = false) ->
  edge x y = true ->
  RGB.find_boundary thr img x (before ++ y :: after) = Some (y + 1).
Proof.
  intros Hbefore Hy. induction before as [|b before IH]; simpl.
  - fold (edge x y). now rewrite Hy.
  - fold (edge x b). rewrite (Hbefore b) by now left.
    apply IH. intros y' Hy'. apply Hbefore. now right.
Qed.

Lemma find_boundary_none (x : Z) (ys : list Z) :
  (forall y, In y ys -> edge x y = false) ->
  RGB.find_boundary thr img x ys = None.
Proof.
  induction ys as [|y ys IH]; intros Hall; simpl; [reflexivity|].
  fold (edge x y). rewrite (Hall y) by now left.
  apply IH. intros y' Hy'. apply Hall. now right.
Qed.

Lemma find_boundary_inv (x b : Z) (ys : list Z) :
  RGB.find_boundary thr img x ys = Some b ->
  exists y, In y ys /\ b = y + 1 /\ edge x y = true.
Proof.
  induction ys as [|y ys IH]; simpl; [discriminate|].
  fold (edge x y). destruct (edge x y) eqn:E.
  - intros [= <-]. exists y. auto.
  - intros H. destruct (IH H) as [y' [Hin Hy']]. exists y'. auto.
Qed.

Lemma first_opaque_app (x : Z) (ys : list Z) (acc : list RGB.point) :
  RGB.first_opaque thr img x ys acc = acc ++ RGB.first_opaque thr img x ys [].
Proof.
  induction ys as [|y ys IH]; simpl.
  - now rewrite app_nil_r.
  - destruct (RGB.is_opaque thr (RGB.getpixel img (x, y))); [reflexivity|apply IH].
Qed.

Lemma first_opaque_first (x y : Z) (before after : list Z) :
  (forall y', In y' before -> opaque x y' = false) ->
  opaque x y = true ->
  RGB.first_opaque thr img x (before ++ y :: after) [] = [RGB.Pt x y].
Proof.
  intros Hbefore Hy. induction before as [|b before IH]; simpl.
  - fold (opaque x y). now rewrite Hy.
  - fold (opaque x b). rewrite (Hbefore b) by now left.
    apply IH. intros y' Hy'. apply Hbefore. now right.
Qed.

Lemma first_opaque_none (x : Z) (ys : list Z) :
  (forall y, In y ys -> opaque x y = false) ->
  RGB.first_opaque thr img x ys [] = [].
Proof.
  induction ys as [|y ys IH]; intros Hall; simpl; [reflexivity|].
  fold (opaque x y). rewrite (Hall y) by now left.
  apply IH. intros y' Hy'. apply Hall. now right.
Qed.

Lemma first_opaque_inv (x : Z) (ys : list Z) (p : RGB.point) :
  In p (RGB.first_opaque thr img x ys []) ->
  RGB.pt_x p = x /\ In (RGB.pt_y p) ys /\ opaque x (RGB.pt_y p) = true.
Proof.
  induction ys as [|y ys IH]; simpl; [tauto|].
  fold (opaque x y). destruct (opaque x y) eqn:E.
  - intros [<-|[]]. simpl. auto.
  - intros H. destruct (IH H) as [Hx [Hin Ho]]. auto.
Qed.

Lemma scan_column_app (acc : list RGB.point) (x : Z) :
  RGB.scan_column thr img acc x = acc ++ RGB.scan_column thr img [] x.
Proof.
  unfold RGB.scan_column.
  destruct (RGB.find_boundary thr img x _); [reflexivity|].
  apply first_opaque_app.
Qed.

Lemma fold_scan_column (xs : list Z) (acc : list RGB.point) :
  fold_left (RGB.scan_column thr img) xs acc =
  acc ++ flat_map (RGB.scan_column thr img []) xs.
Proof.
  revert acc. induction xs as [|x xs IH]; intros acc; simpl.
  - now rewrite app_nil_r.
  - rewrite IH, (scan_column_app acc x), app_assoc. reflexivity.
Qed.

(** The curve is the concatenation of what each column contributes. *)
Lemma terrain_curve_columns :
  RGB.terrain_curve thr img =
  flat_map (RGB.scan_column thr img []) (Py.range (fst (RGB.size img))).
Proof. unfold RGB.terrain_curve. now rewrite fold_scan_column. Qed.

(** A column contributes points of its own abscissa only, inside the grid. *)
Lemma scan_column_inv (x : Z) (p : RGB.point) :
  In p (RGB.scan_column thr img [] x) ->
  RGB.pt_x p = x /\ 0 <= RGB.pt_y p < snd (RGB.size img).
Proof.
  unfold RGB.scan_column.
  destruct (RGB.find_boundary thr img x _) as [b|] eqn:E.
  - intros [<-|[]]. simpl. split; [reflexivity|].
    apply find_boundary_inv in E. destruct E as [y [Hin [-> _]]].
    apply in_range in Hin. lia.
  - intros H. apply first_opaque_inv in H. destruct H as [Hx [Hin _]].
    apply in_range in Hin. auto.
Qed.

Lemma filter_columns_other (x : Z) (xs : list Z) :
  ~ In x xs ->
  filter (fun p => RGB.pt_x p =? x) (flat_map (RGB.scan_column thr img []) xs) = [].
Proof.
  intros Hnot. apply filter_none. intros p Hp.
  apply in_flat_map in Hp. destruct Hp as [x' [Hx' Hp]].
  apply scan_column_inv in Hp. destruct Hp as [-> _].
  apply Z.eqb_neq. intros ->. now apply Hnot.
Qed.

(** The points of the curve at abscissa [x] are those column [x] gave. *)
Lemma curve_at_column (x : Z) :
  0 <= x < fst (RGB.size img) ->
  filter (fun p => RGB.pt_x p =? x) (RGB.terrain_curve thr img) =
  RGB.scan_column thr img [] x.
Proof.
  intros Hx. rewrite terrain_curve_columns.
  destruct (range_split _ _ Hx) as [after [-> Hafter]].
  rewrite flat_map_app. simpl. rewrite !filter_app.
  rewrite filter_columns_other, filter_columns_other.
  - rewrite app_nil_r. simpl. apply filter_all.
    intros p Hp. apply scan_column_inv in Hp. destruct Hp as [-> _].
    apply Z.eqb_refl.
  - intros H. apply Hafter in H. lia.
  - intros H. apply in_range in H. lia.
Qed.

End RGBScan.

Lemma transition_correct_at (thr : Z) (img : RGB.Image) (x y : Z) :
  0 <= x < fst (RGB.size img) ->
  0 <= y < snd (RGB.size img) - 1 ->
  RGB.is_transparent thr (RGB.getpixel img (x, y)) = true ->
  RGB.is_opaque thr (RGB.getpixel img (x, y + 1)) = true ->
  (forall y', 0 <= y' < y ->
     RGB.is_transparent thr (RGB.getpixel img (x, y')) &&
     RGB.is_opaque thr (RGB.getpixel img (x, y' + 1)) = false) ->
  filter (fun p => RGB.pt_x p =? x) (RGB.terrain_curve thr img) =
  [RGB.Pt x (y + 1)].
Proof.
  intros Hx Hy Ht Ho Hmin.
  rewrite curve_at_column by assumption.
  unfold RGB.scan_column.
  destruct (range_split (snd (RGB.size img) - 1) y Hy) as [after [-> _]].
  rewrite find_boundary_first; [reflexivity| |].
  - intros y' Hy'. apply in_range in Hy'. now apply Hmin.
  - now rewrite Ht, Ho.
Qed.

(** ** The fallback of extract_bounds_rgb.py *)

Section RGBFallback.

Variable thr : Z.
Variable img : RGB.Image.

Let height : Z := snd (RGB.size img).

(** An entirely opaque column has its boundary at row 0. *)
Lemma rgb_all_opaque (x : Z) :
  1 <= height ->
  (forall y, 0 <= y < height -> RGB.is_opaque thr (RGB.getpixel img (x, y)) = true) ->
  RGB.scan_column thr img [] x = [RGB.Pt x 0].
Proof.
  intros HH Hall. unfold RGB.scan_column. fold height.
  rewrite find_boundary_none.
  - assert (H0 : 0 <= 0 < height) by lia.
    destruct (range_split height 0 H0) as [after [-> _]].
    rewrite (range_nonpos 0) by lia.
    apply (first_opaque_first thr img x 0 [] after).
    + intros y' [].
    + now apply Hall.
  - intros y Hy. apply in_range in Hy.
    assert (Ho : RGB.is_opaque thr (RGB.getpixel img (x, y)) = true)
      by (apply Hall; lia).
    rewrite is_opaque_negb in Ho. apply negb_true_iff in Ho.
    now rewrite Ho.
Qed.

(** A column without any opaque row contributes no point at all: the
    fallback loop ends without appending. *)
Lemma rgb_all_transparent (x : Z) :
  (forall y, 0 <= y < height -> RGB.is_opaque thr (RGB.getpixel img (x, y)) = false) ->
  RGB.scan_column thr img [] x = [].
Proof.
  intros Hall. unfold RGB.scan_column. fold height.
  rewrite find_boundary_none.
  - apply first_opaque_none. intros y Hy. apply in_range in Hy. now apply Hall.
  - intros y Hy. apply in_range in Hy.
    rewrite (Hall (y + 1)) by lia. apply andb_false_r.
Qed.

Lemma first_opaque_some (x : Z) (ys : list Z) :
  (exists y, In y ys /\ RGB.is_opaque thr (RGB.getpixel img (x, y)) = true) ->
  exists y0, RGB.first_opaque thr img x ys [] = [RGB.Pt x y0].
Proof.
  induction ys as [|y ys IH]; intros [y1 [Hin Ho]]; [destruct Hin|].
  simpl. destruct (RGB.is_opaque thr (RGB.getpixel img (x, y))) eqn:E.
  - now exists y.
  - apply IH. destruct Hin as [->|Hin]; [congruence|]. now exists y1.
Qed.

(** A column with an opaque row contributes exactly one point. *)
Lemma rgb_column_with_terrain (x : Z) :
  (exists y, 0 <= y < height /\ RGB.is_opaque thr (RGB.getpixel img (x, y)) = true) ->
  exists b, RGB.scan_column thr img [] x = [RGB.Pt x b].
Proof.
  intros [y [Hy Ho]]. unfold RGB.scan_column. fold height.
  destruct (RGB.find_boundary thr img x _) as [b|].
  - now exists b.
  - apply first_opaque_some. exists y. split; [now apply in_range|assumption].
Qed.

(** When every column has an opaque row the curve has one point per column,
    in the order of the columns. *)
Lemma rgb_coverage_with_terrain :
  (forall x, 0 <= x < fst (RGB.size img) ->
     exists y, 0 <= y < height /\ RGB.is_opaque thr (RGB.getpixel img (x, y)) = true) ->
  map RGB.pt_x (RGB.terrain_curve thr img) = Py.range (fst (RGB.size img)).
Proof.
  intros Hall. rewrite terrain_curve_columns.
  assert (Hin : forall x, In x (Py.range (fst (RGB.size img))) ->
                          exists b, RGB.scan_column thr img [] x = [RGB.Pt x b]).
  { intros x Hx. apply rgb_column_with_terrain, Hall. now apply in_range. }
  induction (Py.range (fst (RGB.size img))) as [|x xs IH]; [reflexivity|].
  simpl. destruct (Hin x) as [b ->]; [now left|].
  simpl. f_equal. apply IH. intros x' Hx'. apply Hin. now right.
Qed.

End RGBFallback.

(** C4.  On [gap_image] (three columns, the middle one transparent from top
    to bottom) the curve of extract_bounds_rgb.py has two points, for
    columns 0 and 2: column 1 is skipped, so the curve does not have one
    point per column. *)
Theorem rgb_skips_transparent_column :
  RGB.terrain_curve RGB.ALPHA_THRESHOLD Inputs.gap_image =
    [RGB.Pt 0 1; RGB.Pt 2 0] /\
  map RGB.pt_x (RGB.terrain_curve RGB.ALPHA_THRESHOLD Inputs.gap_image) <>
    Py.range (fst (RGB.size Inputs.gap_image)).
Proof.
  split; [reflexivity|]. vm_compute. discriminate.
Qed.

(** C5.  On an entirely transparent column of height 3,
    extract_bounds_rgb.py emits no boundary point, where
    extract_bounds_fast.py on the same alpha values reports row 2, the
    bottom row. *)
Theorem rgb_transparent_column_no_point :
  RGB.terrain_curve RGB.ALPHA_THRESHOLD Inputs.clear_column = [] /\
  Fast.heightmap 1 3 Inputs.clear_column_bytes = inr [(0, 2)].
Proof. split; reflexivity. Qed.

(** ** Sequences, dicts and the error monad *)

Lemma bind_inr {A B : Type} (m : Py.result A) (k : A -> Py.result B) (b : B) :
  Py.bind m k = inr b -> exists a, m = inr a /\ k a = inr b.
Proof. destruct m as [e|a]; simpl; [discriminate|]. intros H. now exists a. Qed.

Lemma getitem_nonneg {A : Type} (l : list A) (i : Z) (a : A) :
  0 <= i -> nth_error l (Z.to_nat i) = Some a -> Py.getitem l i = inr a.
Proof.
  intros Hi Hnth. unfold Py.getitem.
  assert (Hlt : (Z.to_nat i < length l)%nat)
    by (apply nth_error_Some; congruence).
  replace (i <? 0) with false by (symmetry; apply Z.ltb_ge; lia).
  replace (0 <=? i) with true by (symmetry; apply Z.leb_le; lia).
  replace (i <? Z.of_nat (length l)) with true by (symmetry; apply Z.ltb_lt; lia).
  simpl. now rewrite Hnth.
Qed.

Lemma nth_error_range (n y : Z) :
  0 <= y < n -> nth_error (Py.range n) (Z.to_nat y) = Some y.
Proof.
  intros Hy. unfold Py.range.
  rewrite nth_error_map, nth_error_seq.
  replace (Z.to_nat y <? Z.to_nat n)%nat with true
    by (symmetry; apply Nat.ltb_lt; lia).
  simpl. f_equal. lia.
Qed.

Lemma mapM_Forall2 {A B : Type} (f : A -> Py.result B) (l : list A) (bs : list B) :
  Py.mapM f l = inr bs -> Forall2 (fun a b => f a = inr b) l bs.
Proof.
  revert bs. induction l as [|a l IH]; simpl; intros bs H.
  - injection H as <-. constructor.
  - apply bind_inr in H. destruct H as [b [Hb H]].
    apply bind_inr in H. destruct H as [bs' [Hbs H]].
    injection H as <-. constructor; auto.
Qed.

Lemma mapM_total {A B : Type} (f : A -> Py.result B) (l : list A) :
  (forall a, In a l -> exists b, f a = inr b) -> exists bs, Py.mapM f l = inr bs.
Proof.
  induction l as [|a l IH]; intros H; simpl.
  - now exists [].
  - destruct (H a) as [b Hb]; [now left|].
    destruct IH as [bs Hbs]; [intros a' Ha'; apply H; now right|].
    exists (b :: bs). now rewrite Hb, Hbs.
Qed.

Lemma Forall2_nth_error {A B : Type} (P : A -> B -> Prop) (l : list A) (l' : list B) :
  Forall2 P l l' ->
  forall i a, nth_error l i = Some a -> exists b, nth_error l' i = Some b /\ P a b.
Proof.
  induction 1 as [|a0 b0 l l' HP _ IH]; intros i a Hi.
  - destruct i; discriminate.
  - destruct i as [|i]; simpl in *.
    + injection Hi as <-. now exists b0.
    + now apply IH.
Qed.

Lemma in_setitem {V : Type} (d : list (Z * V)) (k : Z) (v : V) (kv : Z * V) :
  In kv (Py.setitem d k v) -> In kv d \/ kv = (k, v).
Proof.
  induction d as [|[k' v'] d IH]; simpl.
  - intros [<-|[]]. now right.
  - destruct (k =? k').
    + intros [<-|H]; [now right|left; now right].
    + intros [<-|H]; [left; now left|].
      destruct (IH H); [left; now right|now right].
Qed.

(** The keys after [d[k] = v]. *)
Lemma keys_setitem {V : Type} (d : list (Z * V)) (k : Z) (v : V) :
  map fst (Py.setitem d k v) =
  if existsb (Z.eqb k) (map fst d) then map fst d else map fst d ++ [k].
Proof.
  induction d as [|[k' v'] d IH]; simpl; [reflexivity|].
  destruct (k =? k') eqn:E; simpl.
  - apply Z.eqb_eq in E. now subst.
  - rewrite IH. now destruct (existsb (Z.eqb k) (map fst d)).
Qed.

Lemma keys_setitem_fresh {V : Type} (d : list (Z * V)) (k : Z) (v : V) :
  ~ In k (map fst d) -> map fst (Py.setitem d k v) = map fst d ++ [k].
Proof.
  intros Hnot. rewrite keys_setitem.
  destruct (existsb (Z.eqb k) (map fst d)) eqn:E; [|reflexivity].
  apply existsb_exists in E. destruct E as [k' [Hin Hk]].
  apply Z.eqb_eq in Hk. subst. contradiction.
Qed.

Lemma range_step_NoDup (stop step : Z) :
  0 < step -> NoDup (Py.range_step 0 stop step).
Proof.
  intros Hstep. unfold Py.range_step.
  apply NoDup_map_NoDup_ForallPairs; [|apply seq_NoDup].
  intros i j _ _ Hij. nia.
Qed.

(** The length of [range(0, w, s)] is [ceil(w / s)]. *)
Lemma range_step_length (w s : Z) :
  0 < s -> 0 <= w ->
  Z.of_nat (length (Py.range_step 0 w s)) = (w + s - 1) / s /\
  (w + s - 1) / s * s - s < w <= (w + s - 1) / s * s.
Proof.
  intros Hs Hw. unfold Py.range_step.
  rewrite length_map, length_seq.
  replace (w - 0 + s - 1) with (w + s - 1) by lia.
  assert (H0 : 0 <= (w + s - 1) / s) by (apply Z.div_pos; lia).
  split; [lia|].
  pose proof (Z.div_mod (w + s - 1) s ltac:(lia)) as Hdm.
  pose proof (Z.mod_pos_bound (w + s - 1) s Hs) as Hmod.
  nia.
Qed.

Lemma in_range_step (w s x : Z) :
  0 < s -> In x (Py.range_step 0 w s) -> 0 <= x < w /\ x mod s = 0.
Proof.
  intros Hs Hx. unfold Py.range_step in Hx.
  apply in_map_iff in Hx. destruct Hx as [i [<- Hi]].
  apply in_seq in Hi.
  replace (w - 0 + s - 1) with (w + s - 1) in Hi by lia.
  assert (Hpos : 0 < (w + s - 1) / s) by lia.
  assert (Hw : 0 <= w).
  { destruct (Z_lt_le_dec w 0) as [Hneg|]; [|assumption].
    assert ((w + s - 1) / s < 1); [|lia].
    apply Z.div_lt_upper_bound; lia. }
  destruct (range_step_length w s Hs Hw) as [_ Hceil].
  split; [nia|].
  rewrite Z.add_0_l, Z.mul_comm. apply Z.mod_mul. lia.
Qed.

Lemma getitem_total {A : Type} (l : list A) (i : Z) :
  0 <= i < Z.of_nat (length l) -> exists a, Py.getitem l i = inr a.
Proof.
  intros Hi.
  destruct (nth_error l (Z.to_nat i)) as [a|] eqn:E.
  - exists a. apply getitem_nonneg; [lia|assumption].
  - apply nth_error_None in E. lia.
Qed.

(** ** The column scan of extract_bounds_fast.py *)

Section FastScan.

Variable alpha : list (list Z).

Let cell := Fast.cell alpha.

Lemma find_top_range (x d t : Z) (ys : list Z) :
  Fast.find_top alpha x ys d = inr t -> t = d \/ In t ys.
Proof.
  induction ys as [|y ys IH]; simpl.
  - intros [= <-]. now left.
  - intros H. apply bind_inr in H. destruct H as [row [_ H]].
    apply bind_inr in H. destruct H as [a [_ H]].
    destruct (a >? Fast.ALPHA_THRESHOLD).
    + injection H as <-. right. now left.
    + destruct (IH H); [now left|right; now right].
Qed.

Lemma find_top_first (x d y : Z) (before after : list Z) :
  (forall y', In y' before ->
     exists a, cell y' x a /\ a <= Fast.ALPHA_THRESHOLD) ->
  (exists a, cell y x a /\ a > Fast.ALPHA_THRESHOLD) ->
  Fast.find_top alpha x (before ++ y :: after) d = inr y.
Proof.
  intros Hbefore [a [[row [Hrow Ha]] Hgt]].
  induction before as [|b before IH]; simpl.
  - rewrite Hrow. simpl. rewrite Ha. simpl.
    now replace (a >? Fast.ALPHA_THRESHOLD) with true
      by (symmetry; apply Z.gtb_lt; lia).
  - destruct (Hbefore b) as [a' [[row' [Hrow' Ha']] Hle]]; [now left|].
    rewrite Hrow'. simpl. rewrite Ha'. simpl.
    replace (a' >? Fast.ALPHA_THRESHOLD) with false
      by (symmetry; rewrite Z.gtb_ltb; apply Z.ltb_ge; lia).
    apply IH. intros y' Hy'. apply Hbefore. now right.
Qed.

Lemma find_top_default (x d : Z) (ys : list Z) :
  (forall y, In y ys -> exists a, cell y x a /\ a <= Fast.ALPHA_THRESHOLD) ->
  Fast.find_top alpha x ys d = inr d.
Proof.
  induction ys as [|y ys IH]; intros Hall; simpl; [reflexivity|].
  destruct (Hall y) as [a [[row [Hrow Ha]] Hle]]; [now left|].
  rewrite Hrow. simpl. rewrite Ha. simpl.
  replace (a >? Fast.ALPHA_THRESHOLD) with false
    by (symmetry; rewrite Z.gtb_ltb; apply Z.ltb_ge; lia).
  apply IH. intros y' Hy'. apply Hall. now right.
Qed.

Lemma find_top_total (x d : Z) (ys : list Z) :
  (forall y, In y ys -> exists a, cell y x a) ->
  exists t, Fast.find_top alpha x ys d = inr t.
Proof.
  induction ys as [|y ys IH]; intros Hall; simpl; [now exists d|].
  destruct (Hall y) as [a [row [Hrow Ha]]]; [now left|].
  rewrite Hrow. simpl. rewrite Ha. simpl.
  destruct (a >? Fast.ALPHA_THRESHOLD); [now exists y|].
  apply IH. intros y' Hy'. apply Hall. now right.
Qed.

Variable height : Z.

(** The entry a sampled column ends with is the one its own scan gave, or
    was in the dict before. *)
Lemma sample_in (xs : list Z) (hm hm' : list (Z * Z)) (k v : Z) :
  Fast.sample alpha height xs hm = inr hm' ->
  In (k, v) hm' ->
  In (k, v) hm \/
  (In k xs /\ Fast.find_top alpha k (Py.range height) (height - 1) = inr v).
Proof.
  revert hm. induction xs as [|x xs IH]; simpl; intros hm H Hin.
  - injection H as <-. now left.
  - apply bind_inr in H. destruct H as [t [Ht H]].
    destruct (IH _ H Hin) as [Hold|[Hk Hv]].
    + apply in_setitem in Hold. destruct Hold as [Hold|[= -> ->]].
      * now left.
      * right. split; [now left|assumption].
    + right. split; [now right|assumption].
Qed.

Lemma sample_keys (xs : list Z) (hm hm' : list (Z * Z)) :
  Fast.sample alpha height xs hm = inr hm' ->
  NoDup xs ->
  (forall x, In x xs -> ~ In x (map fst hm)) ->
  map fst hm' = map fst hm ++ xs.
Proof.
  revert hm. induction xs as [|x xs IH]; simpl; intros hm H Hnd Hfresh.
  - injection H as <-. now rewrite app_nil_r.
  - apply bind_inr in H. destruct H as [t [Ht H]].
    inversion Hnd as [|? ? Hx Hnd']; subst.
    rewrite (IH _ H Hnd').
    + rewrite keys_setitem_fresh by (apply Hfresh; now left).
      now rewrite <- app_assoc.
    + intros x' Hx'. rewrite keys_setitem_fresh by (apply Hfresh; now left).
      intros Hin. apply in_app_or in Hin. destruct Hin as [Hin|[->|[]]].
      * apply (Hfresh x'); [now right|assumption].
      * contradiction.
Qed.

Lemma sample_total (xs : list Z) (hm : list (Z * Z)) :
  (forall x, In x xs ->
     exists t, Fast.find_top alpha x (Py.range height) (height - 1) = inr t) ->
  exists hm', Fast.sample alpha height xs hm = inr hm'.
Proof.
  revert hm. induction xs as [|x xs IH]; intros hm Hall; simpl.
  - now exists hm.
  - destruct (Hall x) as [t Ht]; [now left|]. rewrite Ht. simpl.
    apply IH. intros x' Hx'. apply Hall. now right.
Qed.

End FastScan.

(** ** The alpha array of extract_bounds_fast.py *)

Lemma build_alpha_cell (w h : Z) (pixels : list Byte.byte) (alpha : list (list Z))
    (y x : Z) :
  Fast.build_alpha w h pixels = inr alpha ->
  0 <= y < h -> 0 <= x < w ->
  exists a, Fast.cell alpha y x a /\ Fast.byte_at pixels (y * w + x) = inr a.
Proof.
  intros Hbuild Hy Hx. unfold Fast.build_alpha in Hbuild.
  apply mapM_Forall2 in Hbuild.
  destruct (Forall2_nth_error _ _ _ Hbuild _ _ (nth_error_range h y Hy))
    as [row [Hrow Hcols]].
  apply mapM_Forall2 in Hcols.
  destruct (Forall2_nth_error _ _ _ Hcols _ _ (nth_error_range w x Hx))
    as [a [Ha Hbyte]].
  exists a. split; [|exact Hbyte].
  exists row. split; apply getitem_nonneg; (lia || assumption).
Qed.

Lemma build_alpha_total (w h : Z) (pixels : list Byte.byte) :
  0 <= w -> 0 <= h -> w * h <= Z.of_nat (length pixels) ->
  exists alpha, Fast.build_alpha w h pixels = inr alpha.
Proof.
  intros Hw Hh Hlen. unfold Fast.build_alpha.
  apply mapM_total. intros y Hy. apply in_range in Hy.
  apply mapM_total. intros x Hx. apply in_range in Hx.
  unfold Fast.byte_at.
  destruct (getitem_total pixels (y * w + x)) as [b Hb]; [nia|].
  rewrite Hb. simpl. eauto.
Qed.

Section FastHeightmap.

Variables (w h : Z) (pixels : list Byte.byte) (hm : list (Z * Z)).
Hypothesis Hrun : Fast.heightmap w h pixels = inr hm.

Lemma fast_heightmap_inv :
  exists alpha, Fast.build_alpha w h pixels = inr alpha /\
    Fast.sample alpha h (Py.range_step 0 w Fast.SAMPLE_INTERVAL) [] = inr hm.
Proof.
  unfold Fast.heightmap in Hrun. apply bind_inr in Hrun.
  destruct Hrun as [alpha [Ha Hs]]. now exists alpha.
Qed.

(** The dict has one key per sampled column, in ascending order. *)
Lemma fast_keys : map fst hm = Py.range_step 0 w Fast.SAMPLE_INTERVAL.
Proof.
  destruct fast_heightmap_inv as [alpha [_ Hs]].
  apply sample_keys in Hs; [exact Hs| |intros x _ []].
  apply range_step_NoDup. reflexivity.
Qed.

(** Every entry is inside the grid. *)
Lemma fast_entry_range (x y : Z) :
  1 <= h -> In (x, y) hm -> 0 <= y <= h - 1.
Proof.
  intros Hh Hin. destruct fast_heightmap_inv as [alpha [_ Hs]].
  destruct (sample_in _ _ _ _ _ _ _ Hs Hin) as [[]|[_ Htop]].
  apply find_top_range in Htop. destruct Htop as [->|Hy]; [lia|].
  apply in_range in Hy. lia.
Qed.

(** A sampled column without a byte above the threshold is reported at the
    bottom row. *)
Lemma fast_all_transparent (x y : Z) :
  (forall r a, 0 <= r < h -> Fast.byte_at pixels (r * w + x) = inr a ->
               a <= Fast.ALPHA_THRESHOLD) ->
  In (x, y) hm -> y = h - 1.
Proof.
  intros Hall Hin. destruct fast_heightmap_inv as [alpha [Ha Hs]].
  destruct (sample_in _ _ _ _ _ _ _ Hs Hin) as [[]|[Hx Htop]].
  apply in_range_step in Hx; [|reflexivity]. destruct Hx as [Hx _].
  rewrite find_top_default in Htop; [congruence|].
  intros r Hr. apply in_range in Hr.
  destruct (build_alpha_cell _ _ _ _ r x Ha Hr Hx) as [a [Hcell Hbyte]].
  exists a. split; [assumption|]. now apply (Hall r).
Qed.

(** A sampled column whose bytes are all above the threshold is reported at
    row 0. *)
Lemma fast_all_opaque (x y : Z) :
  1 <= h ->
  (forall r a, 0 <= r < h -> Fast.byte_at pixels (r * w + x) = inr a ->
               a > Fast.ALPHA_THRESHOLD) ->
  In (x, y) hm -> y = 0.
Proof.
  intros Hh Hall Hin. destruct fast_heightmap_inv as [alpha [Ha Hs]].
  destruct (sample_in _ _ _ _ _ _ _ Hs Hin) as [[]|[Hx Htop]].
  apply in_range_step in Hx; [|reflexivity]. destruct Hx as [Hx _].
  assert (H0 : 0 <= 0 < h) by lia.
  destruct (range_split h 0 H0) as [after [Hsplit _]].
  rewrite Hsplit, (range_nonpos 0) in Htop by lia.
  rewrite (find_top_first alpha x (h - 1) 0 [] after) in Htop.
  - congruence.
  - intros y' [].
  - destruct (build_alpha_cell _ _ _ _ 0 x Ha H0 Hx) as [a [Hcell Hbyte]].
    exists a. split; [assumption|]. now apply (Hall 0).
Qed.

End FastHeightmap.

(** With at least [w * h] bytes the script produces its dict, with
    [ceil(w / 10)] entries. *)
Lemma fast_heightmap_total (w h : Z) (pixels : list Byte.byte) :
  0 <= w -> 0 <= h -> w * h <= Z.of_nat (length pixels) ->
  exists hm, Fast.heightmap w h pixels = inr hm /\
             Z.of_nat (length hm) = (w + Fast.SAMPLE_INTERVAL - 1) / Fast.SAMPLE_INTERVAL.
Proof.
  intros Hw Hh Hlen.
  destruct (build_alpha_total w h pixels Hw Hh Hlen) as [alpha Ha].
  destruct (sample_total alpha h (Py.range_step 0 w Fast.SAMPLE_INTERVAL) [])
    as [hm Hs].
  - intros x Hx. apply in_range_step in Hx; [|reflexivity].
    destruct Hx as [Hx _].
    apply find_top_total. intros y Hy. apply in_range in Hy.
    destruct (build_alpha_cell _ _ _ _ y x Ha Hy Hx) as [a [Hcell _]].
    now exists a.
  - assert (Hrun : Fast.heightmap w h pixels = inr hm).
    { unfold Fast.heightmap. rewrite Ha. exact Hs. }
    exists hm. split; [assumption|].
    rewrite <- (length_map fst), (fast_keys _ _ _ _ Hrun).
    apply range_step_length; [reflexivity|assumption].
Qed.

(** ** extract_bounds.py *)

Lemma fold_setitem_in {V : Type} (f : Z -> V) (xs : list Z) (d : list (Z * V))
    (k : Z) (v : V) :
  In (k, v) (fold_left (fun hm x => Py.setitem hm x (f x)) xs d) ->
  In (k, v) d \/ (In k xs /\ v = f k).
Proof.
  revert d. induction xs as [|x xs IH]; simpl; intros d Hin; [now left|].
  destruct (IH _ Hin) as [Hold|[Hk Hv]].
  - apply in_setitem in Hold. destruct Hold as [Hold|[= -> ->]].
    + now left.
    + right. split; [now left|reflexivity].
  - right. split; [now right|assumption].
Qed.

Lemma fold_setitem_keys {V : Type} (f : Z -> V) (xs : list Z) (d : list (Z * V)) :
  NoDup xs ->
  (forall x, In x xs -> ~ In x (map fst d)) ->
  map fst (fold_left (fun hm x => Py.setitem hm x (f x)) xs d) = map fst d ++ xs.
Proof.
  revert d. induction xs as [|x xs IH]; simpl; intros d Hnd Hfresh.
  - now rewrite app_nil_r.
  - inversion Hnd as [|? ? Hx Hnd']; subst.
    rewrite IH; [| assumption |].
    + rewrite keys_setitem_fresh by (apply Hfresh; now left).
      now rewrite <- app_assoc.
    + intros x' Hx'. rewrite keys_setitem_fresh by (apply Hfresh; now left).
      intros Hin. apply in_app_or in Hin. destruct Hin as [Hin|[->|[]]].
      * apply (Hfresh x'); [now right|assumption].
      * contradiction.
Qed.

Section SimpleScan.

Variable get_pixel_alpha : Z -> Z -> Q.

Let above (x y : Z) : bool := negb (Qle_bool (get_pixel_alpha x y) (1 # 2)).

Lemma scan_down_inv (x y : Z) (ys : list Z) :
  Simple.scan_down get_pixel_alpha x ys = Some y -> In y ys /\ above x y = true.
Proof.
  induction ys as [|y0 ys IH]; simpl; [discriminate|].
  fold (above x y0). destruct (above x y0) eqn:E.
  - intros [= <-]. auto.
  - intros H. destruct (IH H). auto.
Qed.

Lemma scan_down_none (x : Z) (ys : list Z) :
  (forall y, In y ys -> above x y = false) ->
  Simple.scan_down get_pixel_alpha x ys = None.
Proof.
  induction ys as [|y ys IH]; intros Hall; simpl; [reflexivity|].
  fold (above x y). rewrite (Hall y) by now left.
  apply IH. intros y' Hy'. apply Hall. now right.
Qed.

Lemma simple_top_range (x : Z) :
  0 <= Simple.find_top_opaque_pixel get_pixel_alpha x <= Simple.HEIGHT - 1.
Proof.
  unfold Simple.find_top_opaque_pixel.
  destruct (Simple.scan_down get_pixel_alpha x _) as [y|] eqn:E.
  - apply scan_down_inv in E. destruct E as [Hy _]. apply in_range in Hy. lia.
  - unfold Simple.HEIGHT. lia.
Qed.

(** A column whose alpha is above one half in every row is reported at
    row 0, one whose alpha never is at the bottom row. *)
Lemma simple_all_opaque (x : Z) :
  (forall y, 0 <= y < Simple.HEIGHT -> (1 # 2 < get_pixel_alpha x y)%Q) ->
  Simple.find_top_opaque_pixel get_pixel_alpha x = 0.
Proof.
  intros Hall. unfold Simple.find_top_opaque_pixel.
  assert (H0 : 0 <= 0 < Simple.HEIGHT) by (unfold Simple.HEIGHT; lia).
  destruct (range_split Simple.HEIGHT 0 H0) as [after [-> _]].
  rewrite (range_nonpos 0) by lia. simpl.
  destruct (Qle_bool (get_pixel_alpha x 0) (1 # 2)) eqn:E; [|reflexivity].
  apply Qle_bool_iff in E. specialize (Hall 0 H0).
  exfalso. apply (Qlt_not_le _ _ Hall). exact E.
Qed.

Lemma simple_all_transparent (x : Z) :
  (forall y, 0 <= y < Simple.HEIGHT -> (get_pixel_alpha x y <= 1 # 2)%Q) ->
  Simple.find_top_opaque_pixel get_pixel_alpha x = Simple.HEIGHT - 1.
Proof.
  intros Hall. unfold Simple.find_top_opaque_pixel.
  rewrite scan_down_none; [reflexivity|].
  intros y Hy. apply in_range in Hy. unfold above.
  apply negb_false_iff, Qle_bool_iff. now apply Hall.
Qed.

Lemma simple_entry (x y : Z) :
  In (x, y) (Simple.heightmap get_pixel_alpha) ->
  In x (Py.range_step 0 Simple.WIDTH Simple.SAMPLE_INTERVAL) /\
  y = Simple.find_top_opaque_pixel get_pixel_alpha x.
Proof.
  intros Hin. unfold Simple.heightmap in Hin.
  apply (fold_setitem_in (Simple.find_top_opaque_pixel get_pixel_alpha)) in Hin.
  destruct Hin as [[]|Hin]. exact Hin.
Qed.

(** One entry per sampled column, 64 of them. *)
Lemma simple_keys :
  map fst (Simple.heightmap get_pixel_alpha) =
  Py.range_step 0 Simple.WIDTH Simple.SAMPLE_INTERVAL.
Proof.
  unfold Simple.heightmap.
  rewrite (fold_setitem_keys (Simple.find_top_opaque_pixel get_pixel_alpha)).
  - reflexivity.
  - apply range_step_NoDup. reflexivity.
  - intros x _ [].
Qed.

End SimpleScan.

(** ** The boundary stays inside the grid *)

(** C10.  Whichever script reports it, by the transition rule or by the
    fallback, the boundary row [y] of a column of a grid of height
    [H >= 1] satisfies [0 <= y <= H - 1]. *)
Theorem boundary_in_grid (H y : Z) :
  1 <= H -> emitted H y -> 0 <= y <= H - 1.
Proof.
  intros HH Hem. destruct Hem as [thr img p Hin|w h pixels hm x y Hrun Hin|gpa x y Hin].
  - rewrite terrain_curve_columns in Hin.
    apply in_flat_map in Hin. destruct Hin as [x [_ Hp]].
    apply scan_column_inv in Hp. lia.
  - exact (fast_entry_range w h pixels hm Hrun x y HH Hin).
  - apply simple_entry in Hin. destruct Hin as [_ ->].
    apply simple_top_range.
Qed.

Lemma boundary_in_grid_witness : 0 <= 2 <= 4 - 1.
Proof.
  apply (boundary_in_grid 4 2).
  - lia.
  - exact (emitted_rgb RGB.ALPHA_THRESHOLD Inputs.column_ttoo (RGB.Pt 0 2)
             (or_introl eq_refl)).
Defined.

(** ** numpy reductions *)

Section Reductions.

Local Open Scope R_scope.

Lemma fold_Rmax_upper (vs : list R) (v u : R) :
  In u (v :: vs) -> u <= fold_left Rmax vs v.
Proof.
  revert v u. induction vs as [|a vs IH]; intros v u Hin; simpl.
  - destruct Hin as [->|[]]. apply Rle_refl.
  - destruct Hin as [->|[->|Hin]].
    + apply Rle_trans with (Rmax u a); [apply Rmax_l|]. apply IH. now left.
    + apply Rle_trans with (Rmax v u); [apply Rmax_r|]. apply IH. now left.
    + apply IH. now right.
Qed.

Lemma fold_Rmax_in (vs : list R) (v : R) : In (fold_left Rmax vs v) (v :: vs).
Proof.
  revert v. induction vs as [|a vs IH]; intros v; simpl; [now left|].
  destruct (IH (Rmax v a)) as [H|H].
  - rewrite <- H. apply (Rmax_case v a); auto.
  - right. now right.
Qed.

Lemma fold_Rmin_lower (vs : list R) (v u : R) :
  In u (v :: vs) -> fold_left Rmin vs v <= u.
Proof.
  revert v u. induction vs as [|a vs IH]; intros v u Hin; simpl.
  - destruct Hin as [->|[]]. apply Rle_refl.
  - destruct Hin as [->|[->|Hin]].
    + apply Rle_trans with (Rmin u a); [|apply Rmin_l]. apply IH. now left.
    + apply Rle_trans with (Rmin v u); [|apply Rmin_r]. apply IH. now left.
    + apply IH. now right.
Qed.

Lemma fold_Rmin_in (vs : list R) (v : R) : In (fold_left Rmin vs v) (v :: vs).
Proof.
  revert v. induction vs as [|a vs IH]; intros v; simpl; [now left|].
  destruct (IH (Rmin v a)) as [H|H].
  - rewrite <- H. apply (Rmin_case v a); auto.
  - right. now right.
Qed.

(** [np.max] of a non-empty array is one of its entries and bounds them
    all. *)
Lemma np_max_spec (a : list R) :
  a <> [] ->
  exists m, RGB.np_max a = inr m /\ In m a /\ forall u, In u a -> u <= m.
Proof.
  destruct a as [|v vs]; [congruence|]. intros _.
  exists (fold_left Rmax vs v). split; [reflexivity|].
  split; [apply fold_Rmax_in|apply fold_Rmax_upper].
Qed.

Lemma np_min_spec (a : list R) :
  a <> [] ->
  exists m, RGB.np_min a = inr m /\ In m a /\ forall u, In u a -> m <= u.
Proof.
  destruct a as [|v vs]; [congruence|]. intros _.
  exists (fold_left Rmin vs v). split; [reflexivity|].
  split; [apply fold_Rmin_in|apply fold_Rmin_lower].
Qed.

Lemma Rleb_true (u v : R) : RGB.Rleb u v = true <-> u <= v.
Proof.
  unfold RGB.Rleb. destruct (Rle_dec u v); split; auto; discriminate.
Qed.

Lemma arr_sub_map {A : Type} (f g : A -> R) (l : list A) :
  RGB.arr_sub (map f l) (map g l) = map (fun p => f p - g p) l.
Proof.
  unfold RGB.arr_sub. induction l as [|p l IH]; simpl; [reflexivity|].
  now rewrite IH.
Qed.

Lemma arr_le_map {A : Type} (f g : A -> R) (l : list A) :
  RGB.arr_le (map f l) (map g l) = map (fun p => RGB.Rleb (f p) (g p)) l.
Proof.
  unfold RGB.arr_le. induction l as [|p l IH]; simpl; [reflexivity|].
  now rewrite IH.
Qed.

Lemma np_all_map {A : Type} (f : A -> bool) (l : list A) :
  RGB.np_all (map f l) = true <-> forall p, In p l -> f p = true.
Proof.
  unfold RGB.np_all. rewrite forallb_forall. split.
  - intros H p Hp. apply (H (f p)). now apply in_map.
  - intros H b Hb. apply in_map_iff in Hb. destruct Hb as [p [<- Hp]]. auto.
Qed.

End Reductions.

(** ** The Fourier model *)

Section Model.

Local Open Scope R_scope.

(** Lowering [a0] lowers the whole curve by the same amount. *)
Lemma fourier_curve_shift (width x a0 a1 b1 a2 b2 a3 b3 m : R) :
  RGB.fourier_curve width x (a0 - m) a1 b1 a2 b2 a3 b3 =
  RGB.fourier_curve width x a0 a1 b1 a2 b2 a3 b3 - m.
Proof. unfold RGB.fourier_curve. ring. Qed.

(** Without harmonics the curve is the constant [a0]. *)
Lemma fourier_curve_dc (width x a0 : R) :
  RGB.fourier_curve width x a0 0 0 0 0 0 0 = a0.
Proof. unfold RGB.fourier_curve. ring. Qed.



End Model.



(** *** The same in binary64 *)

Module Binary64.

Import Floats.
Local Open Scope float_scope.





End Binary64.

(** ** The safety margin of extract_bounds_rgb.py *)

Section SafeBoundary.

Local Open Scope R_scope.

Variable width : Z.
Variable curve : list RGB.point.
Variables a0 a1 b1 a2 b2 a3 b3 : R.

(** The fitted curve at the abscissa of [p] and the residual there. *)
Let fitted (p : RGB.point) : R :=
  RGB.fourier_curve (IZR width) (IZR (RGB.pt_x p)) a0 a1 b1 a2 b2 a3 b3.

Let residual (p : RGB.point) : R := IZR (RGB.pt_y p) - fitted p.

(** On a non-empty curve and a seven-coefficient fit the computation goes
    through, and this is what it reports. *)
Lemma safe_boundary_run :
  curve <> [] ->
  exists rep,
    RGB.safe_boundary width curve [a0; a1; b1; a2; b2; a3; b3] = inr rep /\
    RGB.np_max (map residual curve) = inr (RGB.max_error rep) /\
    RGB.safety_margin rep = RGB.max_error rep + 5 /\
    RGB.safe_params rep = [a0 - RGB.safety_margin rep; a1; b1; a2; b2; a3; b3] /\
    RGB.y_safe rep = map (fun p => fitted p - RGB.safety_margin rep) curve /\
    RGB.all_above rep =
      RGB.np_all (map (fun p => RGB.Rleb (fitted p - RGB.safety_margin rep)
                                         (IZR (RGB.pt_y p))) curve).
Proof.
  intros Hne. unfold RGB.safe_boundary, RGB.fourier_curve_star.
  change (RGB.fitted_parameters [a0; a1; b1; a2; b2; a3; b3]) with (@inr Py.exn unit tt).
  cbn [Py.bind Py.ret RGB.isub_at_0].
  rewrite !map_map.
  change (fun x : RGB.point =>
            RGB.fourier_curve (IZR width) (IZR (RGB.pt_x x)) a0 a1 b1 a2 b2 a3 b3)
    with fitted.
  rewrite (arr_sub_map (fun p => IZR (RGB.pt_y p)) fitted curve).
  change (fun p : RGB.point => IZR (RGB.pt_y p) - fitted p) with residual.
  destruct (np_max_spec (map residual curve)) as [M [HM _]].
  { destruct curve; [congruence|discriminate]. }
  rewrite HM. cbn [Py.bind Py.ret RGB.isub_at_0].
  rewrite !map_map.
  set (safe := fun p : RGB.point =>
         RGB.fourier_curve (IZR width) (IZR (RGB.pt_x p))
                           (a0 - (M + 5)) a1 b1 a2 b2 a3 b3).
  change (fun x : RGB.point =>
            RGB.fourier_curve (IZR width) (IZR (RGB.pt_x x))
                              (a0 - (M + 5)) a1 b1 a2 b2 a3 b3)
    with safe.
  rewrite (arr_sub_map (fun p => IZR (RGB.pt_y p)) safe curve).
  destruct (np_min_spec (map (fun p => IZR (RGB.pt_y p) - safe p) curve))
    as [lo [Hlo _]].
  { destruct curve; [congruence|discriminate]. }
  destruct (np_max_spec (map (fun p => IZR (RGB.pt_y p) - safe p) curve))
    as [hi [Hhi _]].
  { destruct curve; [congruence|discriminate]. }
  rewrite Hlo, Hhi. cbn [Py.bind Py.ret].
  eexists. split; [reflexivity|].
  cbn [RGB.max_error RGB.safety_margin RGB.safe_params RGB.y_safe RGB.all_above].
  assert (Hsafe : map safe curve = map (fun p => fitted p - (M + 5)) curve).
  { apply map_ext. intros p. unfold safe, fitted. apply fourier_curve_shift. }
  split; [reflexivity|].
  split; [reflexivity|]. split; [reflexivity|]. split.
  - exact Hsafe.
  - rewrite (arr_le_map safe (fun p => IZR (RGB.pt_y p)) curve).
    f_equal. apply map_ext. intros p. unfold safe, fitted.
    now rewrite fourier_curve_shift.
Qed.

End SafeBoundary.

(** ** The spiky terrain *)

Lemma spiky_extraction :
  RGB.terrain_curve RGB.ALPHA_THRESHOLD Inputs.spiky_image = Inputs.spiky_curve.
Proof. vm_compute. reflexivity. Qed.

(** What the script reports on the spiky terrain: the largest residual is
    20, the margin 25, the safe curve the constant 75, and the check of the
    safe curve against the data is false. *)
Lemma spiky_report :
  exists rep,
    RGB.safe_boundary 12 Inputs.spiky_curve Inputs.spiky_fit = inr rep /\
    RGB.max_error rep = 20%R /\
    RGB.safety_margin rep = 25%R /\
    RGB.safe_params rep = [75; 0; 0; 0; 0; 0; 0]%R /\
    RGB.y_safe rep = repeat 75%R 12 /\
    RGB.all_above rep = false.
Proof.
  destruct (safe_boundary_run 12 Inputs.spiky_curve 100 0 0 0 0 0 0)
    as [rep [Hrun [Hmax [Hmargin [Hparams [Hsafe Hall]]]]]]; [discriminate|].
  exists rep. split; [exact Hrun|].
  assert (HM : RGB.max_error rep = 20%R).
  { destruct (np_max_spec
      (map (fun p => (IZR (RGB.pt_y p) -
                      RGB.fourier_curve 12 (IZR (RGB.pt_x p)) 100 0 0 0 0 0 0)%R)
           Inputs.spiky_curve)) as [m [Hm [Hin Hup]]]; [discriminate|].
    rewrite Hmax in Hm. injection Hm as <-.
    specialize (Hup (IZR 120 - RGB.fourier_curve 12 (IZR 1) 100 0 0 0 0 0 0)%R).
    rewrite fourier_curve_dc in Hup.
    assert (H20 : (20 <= RGB.max_error rep)%R).
    { replace 20%R with (120 - 100)%R by lra. apply Hup.
      right. left. cbn. now rewrite fourier_curve_dc. }
    cbn in Hin. rewrite !fourier_curve_dc in Hin.
    repeat (destruct Hin as [Hin|Hin]; [lra|]). destruct Hin. }
  assert (H25 : RGB.safety_margin rep = 25%R) by (rewrite Hmargin, HM; lra).
  split; [exact HM|]. split; [exact H25|].
  assert (H75 : (100 - 25 = 75)%R) by lra.
  split; [now rewrite Hparams, H25, H75|].
  split.
  - rewrite Hsafe, H25. cbn. now rewrite !fourier_curve_dc, H75.
  - rewrite Hall, H25. cbn. rewrite !fourier_curve_dc.
    unfold RGB.Rleb at 1. destruct (Rle_dec (100 - 25) 60) as [Hle|_]; [lra|].
    reflexivity.
Qed.

(** ** The envelope *)

(** C1.  On the spiky terrain, with its least-squares fit, the safe curve
    the script produces is the constant 75, which lies below the boundary
    point (0, 60) in image coordinates: [safe_y(0) = 75 > 60].  The curve
    extracted from the image is [spiky_curve], and the script's own check
    of the safe curve against the data is false. *)
Theorem envelope_violated_on_spiky_terrain :
  RGB.terrain_curve RGB.ALPHA_THRESHOLD Inputs.spiky_image = Inputs.spiky_curve /\
  exists rep,
    RGB.safe_boundary 12 Inputs.spiky_curve Inputs.spiky_fit = inr rep /\
    RGB.safe_params rep = [75; 0; 0; 0; 0; 0; 0]%R /\
    In (RGB.Pt 0 60) Inputs.spiky_curve /\
    (IZR 60 < RGB.fourier_curve 12 (IZR 0) 75 0 0 0 0 0 0)%R /\
    RGB.all_above rep = false.
Proof.
  split; [exact spiky_extraction|].
  destruct spiky_report as [rep [Hrun [_ [_ [Hparams [_ Hall]]]]]].
  exists rep. split; [exact Hrun|]. split; [exact Hparams|].
  split; [now left|]. split; [|exact Hall].
  rewrite fourier_curve_dc. lra.
Qed.

(** C2, as the spec states it, fails: on the spiky terrain the post-condition
    does not hold, and the script returns the curve all the same, with its
    check set to false. *)
Lemma unsafe_curve_is_returned :
  exists rep,
    RGB.safe_boundary 12 Inputs.spiky_curve Inputs.spiky_fit = inr rep /\
    ~ Forall2 Rle (RGB.y_safe rep)
                  (map (fun p => IZR (RGB.pt_y p)) Inputs.spiky_curve) /\
    RGB.all_above rep = false.
Proof.
  destruct spiky_report as [rep [Hrun [_ [_ [_ [Hsafe Hall]]]]]].
  exists rep. split; [exact Hrun|]. split; [|exact Hall].
  rewrite Hsafe. intros HF. cbn in HF. inversion HF; subst. lra.
Qed.

(** C2, amended.  On a non-empty curve and a seven-coefficient fit the
    script raises nothing: it returns the safe curve together with the
    truth value of the post-condition, which is true exactly when the safe
    curve is at or above (numerically at most) every boundary point. *)
Theorem postcondition_is_reported (width : Z) (curve : list RGB.point)
    (a0 a1 b1 a2 b2 a3 b3 : R) :
  curve <> [] ->
  exists rep,
    RGB.safe_boundary width curve [a0; a1; b1; a2; b2; a3; b3] = inr rep /\
    (RGB.all_above rep = true <->
     forall p, In p curve ->
       (RGB.fourier_curve (IZR width) (IZR (RGB.pt_x p))
          (a0 - RGB.safety_margin rep) a1 b1 a2 b2 a3 b3 <= IZR (RGB.pt_y p))%R).
Proof.
  intros Hne.
  destruct (safe_boundary_run width curve a0 a1 b1 a2 b2 a3 b3 Hne)
    as [rep [Hrun [_ [_ [_ [_ Hall]]]]]].
  exists rep. split; [exact Hrun|].
  rewrite Hall, np_all_map.
  split; intros H p Hp; specialize (H p Hp).
  - rewrite fourier_curve_shift. now apply Rleb_true.
  - apply Rleb_true. now rewrite <- fourier_curve_shift.
Qed.

Lemma postcondition_is_reported_witness :
  exists rep,
    RGB.safe_boundary 12 Inputs.spiky_curve [100; 0; 0; 0; 0; 0; 0]%R = inr rep /\
    (RGB.all_above rep = true <->
     forall p, In p Inputs.spiky_curve ->
       (RGB.fourier_curve (IZR 12) (IZR (RGB.pt_x p))
          (100 - RGB.safety_margin rep) 0 0 0 0 0 0 <= IZR (RGB.pt_y p))%R).
Proof.
  apply (postcondition_is_reported 12 Inputs.spiky_curve 100 0 0 0 0 0 0).
  discriminate.
Defined.

(** C3.  The safety margin is the largest residual
    [y_i - fitted(x_i)] over the boundary points plus 5, and the safe
    coefficients are the fitted ones with [a0] lowered by the margin. *)
Theorem margin_is_max_residual_plus_five (width : Z) (curve : list RGB.point)
    (a0 a1 b1 a2 b2 a3 b3 : R) :
  curve <> [] ->
  exists rep m,
    RGB.safe_boundary width curve [a0; a1; b1; a2; b2; a3; b3] = inr rep /\
    (exists p, In p curve /\
       m = (IZR (RGB.pt_y p) -
            RGB.fourier_curve (IZR width) (IZR (RGB.pt_x p)) a0 a1 b1 a2 b2 a3 b3)%R) /\
    (forall p, In p curve ->
       (IZR (RGB.pt_y p) -
        RGB.fourier_curve (IZR width) (IZR (RGB.pt_x p)) a0 a1 b1 a2 b2 a3 b3 <= m)%R) /\
    RGB.safety_margin rep = (m + 5)%R /\
    RGB.safe_params rep = [(a0 - (m + 5))%R; a1; b1; a2; b2; a3; b3].
Proof.
  intros Hne.
  destruct (safe_boundary_run width curve a0 a1 b1 a2 b2 a3 b3 Hne)
    as [rep [Hrun [Hmax [Hmargin [Hparams _]]]]].
  exists rep, (RGB.max_error rep). split; [exact Hrun|].
  match type of Hmax with RGB.np_max ?a = _ =>
    destruct (np_max_spec a) as [m [Hm [Hin Hup]]] end.
  { destruct curve; [congruence|discriminate]. }
  rewrite Hmax in Hm. injection Hm as <-.
  split.
  - apply in_map_iff in Hin. destruct Hin as [p [Hp Hin]]. exists p. auto.
  - split.
    + intros p Hp. apply Hup.
      apply (in_map (fun p => (IZR (RGB.pt_y p) -
        RGB.fourier_curve (IZR width) (IZR (RGB.pt_x p)) a0 a1 b1 a2 b2 a3 b3)%R)).
      exact Hp.
    + split; [exact Hmargin|]. now rewrite Hparams, Hmargin.
Qed.

Lemma margin_is_max_residual_plus_five_witness :
  exists rep m,
    RGB.safe_boundary 640 [RGB.Pt 0 100; RGB.Pt 160 200] [150; 0; 50; 0; 0; 0; 0]%R
      = inr rep /\
    (exists p, In p [RGB.Pt 0 100; RGB.Pt 160 200] /\
       m = (IZR (RGB.pt_y p) -
            RGB.fourier_curve (IZR 640) (IZR (RGB.pt_x p)) 150 0 50 0 0 0 0)%R) /\
    (forall p, In p [RGB.Pt 0 100; RGB.Pt 160 200] ->
       (IZR (RGB.pt_y p) -
        RGB.fourier_curve (IZR 640) (IZR (RGB.pt_x p)) 150 0 50 0 0 0 0 <= m)%R) /\
    RGB.safety_margin rep = (m + 5)%R /\
    RGB.safe_params rep = [(150 - (m + 5))%R; 0; 50; 0; 0; 0; 0]%R.
Proof.
  apply (margin_is_max_residual_plus_five 640 [RGB.Pt 0 100; RGB.Pt 160 200]
           150 0 50 0 0 0 0).
  discriminate.
Defined.

(** C7.  The safe coefficient array differs from the fitted one in its
    first entry only: the six harmonic coefficients are the fitted ones,
    and the safe curve is evaluated with the same period [width]. *)
Theorem safe_curve_frame (width : Z) (curve : list RGB.point) (params : list R) :
  length params = 7%nat ->
  curve <> [] ->
  exists rep,
    RGB.safe_boundary width curve params = inr rep /\
    length (RGB.safe_params rep) = 7%nat /\
    (forall i, (1 <= i)%nat ->
       nth_error (RGB.safe_params rep) i = nth_error params i) /\
    RGB.fourier_curve_star (IZR width) (map (fun p => IZR (RGB.pt_x p)) curve)
                           (RGB.safe_params rep) = inr (RGB.y_safe rep).
Proof.
  intros Hlen Hne.
  destruct params as [|a0 [|a1 [|b1 [|a2 [|b2 [|a3 [|b3 [|c q]]]]]]]];
    try discriminate.
  destruct (safe_boundary_run width curve a0 a1 b1 a2 b2 a3 b3 Hne)
    as [rep [Hrun [_ [_ [Hparams [Hsafe _]]]]]].
  exists rep. split; [exact Hrun|].
  rewrite Hparams. split; [reflexivity|]. split.
  - intros [|i] Hi; [lia|reflexivity].
  - unfold RGB.fourier_curve_star, Py.ret. rewrite Hsafe, map_map.
    f_equal. apply map_ext. intros p. apply fourier_curve_shift.
Qed.

Lemma safe_curve_frame_witness :
  exists rep,
    RGB.safe_boundary 12 Inputs.spiky_curve Inputs.spiky_fit = inr rep /\
    length (RGB.safe_params rep) = 7%nat /\
    (forall i, (1 <= i)%nat ->
       nth_error (RGB.safe_params rep) i = nth_error Inputs.spiky_fit i) /\
    RGB.fourier_curve_star (IZR 12)
      (map (fun p => IZR (RGB.pt_x p)) Inputs.spiky_curve)
      (RGB.safe_params rep) = inr (RGB.y_safe rep).
Proof.
  apply (safe_curve_frame 12 Inputs.spiky_curve Inputs.spiky_fit).
  - reflexivity.
  - discriminate.
Defined.

(** ** The fit of the spiky terrain *)

Section QuarterPeriod.

Local Open Scope R_scope.

Lemma cos_quarter_turn (a : R) : cos (a + PI / 2) = - sin a.
Proof. rewrite cos_plus, cos_PI2, sin_PI2. ring. Qed.

Lemma sin_quarter_turn (a : R) : sin (a + PI / 2) = cos a.
Proof. rewrite sin_plus, cos_PI2, sin_PI2. ring. Qed.

(** Three columns further on a period of twelve, the first harmonic has
    advanced by a quarter turn, the second by a half, the third by three
    quarters. *)
Lemma harmonic1_cos (x : R) : cos (2 * PI / 12 * (x + 3)) = - sin (2 * PI / 12 * x).
Proof.
  replace (2 * PI / 12 * (x + 3)) with (2 * PI / 12 * x + PI / 2) by field.
  apply cos_quarter_turn.
Qed.

Lemma harmonic1_sin (x : R) : sin (2 * PI / 12 * (x + 3)) = cos (2 * PI / 12 * x).
Proof.
  replace (2 * PI / 12 * (x + 3)) with (2 * PI / 12 * x + PI / 2) by field.
  apply sin_quarter_turn.
Qed.

Lemma harmonic2_cos (x : R) :
  cos (2 * (2 * PI / 12) * (x + 3)) = - cos (2 * (2 * PI / 12) * x).
Proof.
  replace (2 * (2 * PI / 12) * (x + 3)) with (2 * (2 * PI / 12) * x + PI) by field.
  apply neg_cos.
Qed.

Lemma harmonic2_sin (x : R) :
  sin (2 * (2 * PI / 12) * (x + 3)) = - sin (2 * (2 * PI / 12) * x).
Proof.
  replace (2 * (2 * PI / 12) * (x + 3)) with (2 * (2 * PI / 12) * x + PI) by field.
  apply neg_sin.
Qed.

Lemma harmonic3_cos (x : R) :
  cos (3 * (2 * PI / 12) * (x + 3)) = sin (3 * (2 * PI / 12) * x).
Proof.
  replace (3 * (2 * PI / 12) * (x + 3))
    with (3 * (2 * PI / 12) * x + PI / 2 + PI) by field.
  rewrite neg_cos, cos_quarter_turn. ring.
Qed.

Lemma harmonic3_sin (x : R) :
  sin (3 * (2 * PI / 12) * (x + 3)) = - cos (3 * (2 * PI / 12) * x).
Proof.
  replace (3 * (2 * PI / 12) * (x + 3))
    with (3 * (2 * PI / 12) * x + PI / 2 + PI) by field.
  rewrite neg_sin, sin_quarter_turn. ring.
Qed.

(** Over four columns a quarter period apart the harmonics cancel: the
    curve averages to [a0]. *)
Lemma fourier_quarter_sum (x a0 a1 b1 a2 b2 a3 b3 : R) :
  RGB.fourier_curve 12 x a0 a1 b1 a2 b2 a3 b3 +
  RGB.fourier_curve 12 (x + 3) a0 a1 b1 a2 b2 a3 b3 +
  RGB.fourier_curve 12 (x + 3 + 3) a0 a1 b1 a2 b2 a3 b3 +
  RGB.fourier_curve 12 (x + 3 + 3 + 3) a0 a1 b1 a2 b2 a3 b3 = 4 * a0.
Proof.
  unfold RGB.fourier_curve. cbv zeta.
  repeat (rewrite harmonic1_cos || rewrite harmonic1_sin ||
          rewrite harmonic2_cos || rewrite harmonic2_sin ||
          rewrite harmonic3_cos || rewrite harmonic3_sin).
  ring.
Qed.

(** [spiky_fit] minimises the sum of squared residuals on [spiky_curve]:
    it is the fit a converged least-squares solver returns. *)
Lemma spiky_fit_least_squares (a0 a1 b1 a2 b2 a3 b3 : R) :
  RGB.sum_of_squares 12 Inputs.spiky_curve 100 0 0 0 0 0 0 <=
  RGB.sum_of_squares 12 Inputs.spiky_curve a0 a1 b1 a2 b2 a3 b3.
Proof.
  pose proof (fourier_quarter_sum 0 a0 a1 b1 a2 b2 a3 b3) as H0.
  pose proof (fourier_quarter_sum 1 a0 a1 b1 a2 b2 a3 b3) as H1.
  pose proof (fourier_quarter_sum 2 a0 a1 b1 a2 b2 a3 b3) as H2.
  replace (0 + 3) with 3 in H0 by lra.
  replace (3 + 3) with 6 in H0 by lra.
  replace (6 + 3) with 9 in H0 by lra.
  replace (1 + 3) with 4 in H1 by lra.
  replace (4 + 3) with 7 in H1 by lra.
  replace (7 + 3) with 10 in H1 by lra.
  replace (2 + 3) with 5 in H2 by lra.
  replace (5 + 3) with 8 in H2 by lra.
  replace (8 + 3) with 11 in H2 by lra.
  unfold RGB.sum_of_squares, Inputs.spiky_curve.
  cbn [map fold_right RGB.pt_x RGB.pt_y].
  rewrite !fourier_curve_dc.
  set (f0 := RGB.fourier_curve 12 0 a0 a1 b1 a2 b2 a3 b3) in *.
  set (f1 := RGB.fourier_curve 12 1 a0 a1 b1 a2 b2 a3 b3) in *.
  set (f2 := RGB.fourier_curve 12 2 a0 a1 b1 a2 b2 a3 b3) in *.
  set (f3 := RGB.fourier_curve 12 3 a0 a1 b1 a2 b2 a3 b3) in *.
  set (f4 := RGB.fourier_curve 12 4 a0 a1 b1 a2 b2 a3 b3) in *.
  set (f5 := RGB.fourier_curve 12 5 a0 a1 b1 a2 b2 a3 b3) in *.
  set (f6 := RGB.fourier_curve 12 6 a0 a1 b1 a2 b2 a3 b3) in *.
  set (f7 := RGB.fourier_curve 12 7 a0 a1 b1 a2 b2 a3 b3) in *.
  set (f8 := RGB.fourier_curve 12 8 a0 a1 b1 a2 b2 a3 b3) in *.
  set (f9 := RGB.fourier_curve 12 9 a0 a1 b1 a2 b2 a3 b3) in *.
  set (f10 := RGB.fourier_curve 12 10 a0 a1 b1 a2 b2 a3 b3) in *.
  set (f11 := RGB.fourier_curve 12 11 a0 a1 b1 a2 b2 a3 b3) in *.
  clearbody f0 f1 f2 f3 f4 f5 f6 f7 f8 f9 f10 f11.
  unfold Rsqr.
  pose proof (Rle_0_sqr (f0 - 100)) as S0. pose proof (Rle_0_sqr (f1 - 100)) as S1.
  pose proof (Rle_0_sqr (f2 - 100)) as S2. pose proof (Rle_0_sqr (f3 - 100)) as S3.
  pose proof (Rle_0_sqr (f4 - 100)) as S4. pose proof (Rle_0_sqr (f5 - 100)) as S5.
  pose proof (Rle_0_sqr (f6 - 100)) as S6. pose proof (Rle_0_sqr (f7 - 100)) as S7.
  pose proof (Rle_0_sqr (f8 - 100)) as S8. pose proof (Rle_0_sqr (f9 - 100)) as S9.
  pose proof (Rle_0_sqr (f10 - 100)) as S10.
  pose proof (Rle_0_sqr (f11 - 100)) as S11.
  unfold Rsqr in *. nra.
Qed.

End QuarterPeriod.

(** The whole of [main] on the spiky image: whenever the solver returns the
    least-squares fit, the script goes through to the end and delivers a
    safe curve that its own check finds not to be above the terrain. *)
Lemma main_on_spiky_image
    (curve_fit : (R -> R -> R -> R -> R -> R -> R -> R -> R) ->
                 list R -> list R -> Py.result (list R)) :
  curve_fit (RGB.fourier_curve 12)
            (map (fun p => IZR (RGB.pt_x p)) Inputs.spiky_curve)
            (map (fun p => IZR (RGB.pt_y p)) Inputs.spiky_curve)
    = inr Inputs.spiky_fit ->
  exists rep,
    RGB.main curve_fit Inputs.spiky_image = inr (Inputs.spiky_curve, rep) /\
    RGB.safe_params rep = [75; 0; 0; 0; 0; 0; 0]%R /\
    RGB.all_above rep = false.
Proof.
  intros Hfit.
  destruct spiky_report as [rep [Hrun [_ [_ [Hparams [_ Hall]]]]]].
  exists rep. split; [|split; assumption].
  unfold RGB.main. rewrite spiky_extraction.
  change (fst (RGB.size Inputs.spiky_image)) with 12.
  change (Py.min (map RGB.pt_y Inputs.spiky_curve)) with (@inr Py.exn Z 60).
  change (Py.max (map RGB.pt_y Inputs.spiky_curve)) with (@inr Py.exn Z 120).
  cbn [Py.bind]. rewrite Hfit. cbn [Py.bind]. rewrite Hrun. reflexivity.
Qed.

(** When the safe curve is above the terrain, in exact arithmetic: exactly
    when no boundary point lies further above the fitted curve than the
    margin, the margin being taken from the points below it. *)
Lemma envelope_holds_iff (width : Z) (curve : list RGB.point)
    (a0 a1 b1 a2 b2 a3 b3 : R) (rep : RGB.SafeBoundary) :
  RGB.safe_boundary width curve [a0; a1; b1; a2; b2; a3; b3] = inr rep ->
  (RGB.all_above rep = true <->
   forall p, In p curve ->
     (RGB.fourier_curve (IZR width) (IZR (RGB.pt_x p)) a0 a1 b1 a2 b2 a3 b3
        - IZR (RGB.pt_y p) <= RGB.max_error rep + 5)%R).
Proof.
  intros Hrun.
  assert (Hne : curve <> []).
  { intros ->. discriminate Hrun. }
  destruct (safe_boundary_run width curve a0 a1 b1 a2 b2 a3 b3 Hne)
    as [rep' [Hrun' [_ [Hmargin [_ [_ Hall]]]]]].
  rewrite Hrun in Hrun'. injection Hrun' as <-.
  rewrite Hall, np_all_map, Hmargin.
  split; intros H p Hp; specialize (H p Hp).
  - apply Rleb_true in H. lra.
  - apply Rleb_true. lra.
Qed.

(** ** The first transition of a column *)

Lemma least_true (f : Z -> bool) (n : Z) :
  0 <= n -> f n = true ->
  exists m, 0 <= m <= n /\ f m = true /\ forall k, 0 <= k < m -> f k = false.
Proof.
  induction n as [n IH] using (well_founded_induction (Z.lt_wf 0)).
  intros Hn Hf.
  destruct (forallb (fun k => negb (f k)) (Py.range n)) eqn:E.
  - exists n. split; [lia|]. split; [assumption|].
    intros k Hk. rewrite forallb_forall in E.
    apply negb_true_iff, E, in_range. exact Hk.
  - assert (Hex : exists k, In k (Py.range n) /\ f k = true).
    { clear IH Hf. induction (Py.range n) as [|k ks IHks]; [discriminate|].
      simpl in E. destruct (f k) eqn:Fk.
      - exists k. split; [now left|assumption].
      - destruct (IHks E) as [k' [Hin Hk']]. exists k'. split; [now right|assumption]. }
    destruct Hex as [k [Hk Fk]]. apply in_range in Hk.
    destruct (IH k) as [m [Hm [Fm Hleast]]]; [lia|lia|assumption|].
    exists m. split; [lia|]. auto.
Qed.

(** C6.  A column with a transparent row directly above an opaque one has
    exactly one point on the curve, at row [y + 1], where [y] is the
    smallest row (scanning 0 .. H-2 from the top) that is transparent with
    an opaque row below it. *)
Theorem transition_correct (thr : Z) (img : RGB.Image) (x y1 : Z) :
  0 <= x < fst (RGB.size img) ->
  0 <= y1 < snd (RGB.size img) - 1 ->
  RGB.is_transparent thr (RGB.getpixel img (x, y1)) = true ->
  RGB.is_opaque thr (RGB.getpixel img (x, y1 + 1)) = true ->
  exists y, 0 <= y <= y1 /\
    RGB.is_transparent thr (RGB.getpixel img (x, y)) = true /\
    RGB.is_opaque thr (RGB.getpixel img (x, y + 1)) = true /\
    (forall y', 0 <= y' < y ->
       RGB.is_transparent thr (RGB.getpixel img (x, y')) &&
       RGB.is_opaque thr (RGB.getpixel img (x, y' + 1)) = false) /\
    filter (fun p => RGB.pt_x p =? x) (RGB.terrain_curve thr img) =
    [RGB.Pt x (y + 1)].
Proof.
  intros Hx Hy1 Ht Ho.
  destruct (least_true
    (fun y => RGB.is_transparent thr (RGB.getpixel img (x, y)) &&
              RGB.is_opaque thr (RGB.getpixel img (x, y + 1))) y1)
    as [y [Hy [Fy Hleast]]]; [lia|now rewrite Ht, Ho|].
  apply andb_true_iff in Fy. destruct Fy as [Ty Oy].
  exists y. split; [assumption|]. split; [assumption|]. split; [assumption|].
  split; [exact Hleast|].
  apply transition_correct_at; (assumption || lia).
Qed.

Lemma transition_correct_witness :
  exists y, 0 <= y <= 1 /\
    RGB.is_transparent RGB.ALPHA_THRESHOLD
      (RGB.getpixel Inputs.column_ttoo (0, y)) = true /\
    RGB.is_opaque RGB.ALPHA_THRESHOLD
      (RGB.getpixel Inputs.column_ttoo (0, y + 1)) = true /\
    (forall y', 0 <= y' < y ->
       RGB.is_transparent RGB.ALPHA_THRESHOLD
         (RGB.getpixel Inputs.column_ttoo (0, y')) &&
       RGB.is_opaque RGB.ALPHA_THRESHOLD
         (RGB.getpixel Inputs.column_ttoo (0, y' + 1)) = false) /\
    filter (fun p => RGB.pt_x p =? 0)
           (RGB.terrain_curve RGB.ALPHA_THRESHOLD Inputs.column_ttoo) =
    [RGB.Pt 0 (y + 1)].
Proof.
  apply (transition_correct RGB.ALPHA_THRESHOLD Inputs.column_ttoo 0 1).
  - simpl. lia.
  - simpl. lia.
  - reflexivity.
  - reflexivity.
Defined.

(** The column [transparent, transparent, opaque, opaque] (rows 0..3) has
    its boundary at row 2. *)
Lemma column_ttoo_boundary :
  RGB.terrain_curve RGB.ALPHA_THRESHOLD Inputs.column_ttoo = [RGB.Pt 0 2].
Proof. reflexivity. Qed.

(** * Further properties of the scripts *)

(** ** The curve of extract_bounds_rgb.py, column by column *)

Section RGBCurve.

Variable thr : Z.
Variable img : RGB.Image.

Let width : Z := fst (RGB.size img).
Let height : Z := snd (RGB.size img).
Let opaque_at (x y : Z) : bool := RGB.is_opaque thr (RGB.getpixel img (x, y)).

(** Whether column [x] has an opaque row. *)
Let has_terrain (x : Z) : bool := existsb (opaque_at x) (Py.range height).

Lemma has_terrain_true (x : Z) :
  has_terrain x = true <-> exists y, 0 <= y < height /\ opaque_at x y = true.
Proof.
  unfold has_terrain. rewrite existsb_exists. split.
  - intros [y [Hin Ho]]. apply in_range in Hin. now exists y.
  - intros [y [Hy Ho]]. exists y. split; [now apply in_range|assumption].
Qed.

Lemma scan_column_without_terrain (x : Z) :
  has_terrain x = false -> RGB.scan_column thr img [] x = [].
Proof.
  intros Hno. apply rgb_all_transparent. intros y Hy.
  destruct (RGB.is_opaque thr (RGB.getpixel img (x, y))) eqn:E; [|reflexivity].
  assert (has_terrain x = true); [|congruence].
  apply has_terrain_true. now exists y.
Qed.

Lemma curve_abscissae_of (xs : list Z) :
  map RGB.pt_x (flat_map (RGB.scan_column thr img []) xs) = filter has_terrain xs.
Proof.
  induction xs as [|x xs IH]; [reflexivity|].
  simpl. rewrite map_app, IH.
  destruct (has_terrain x) eqn:E.
  - apply has_terrain_true in E.
    destruct (rgb_column_with_terrain thr img x E) as [b ->]. reflexivity.
  - now rewrite scan_column_without_terrain.
Qed.

(** The first opaque row of a column that has one is what the fallback loop
    appends. *)
Lemma first_opaque_least (x y : Z) :
  0 <= y < height -> opaque_at x y = true ->
  exists m, 0 <= m <= y /\ opaque_at x m = true /\
            (forall k, 0 <= k < m -> opaque_at x k = false) /\
            RGB.first_opaque thr img x (Py.range height) [] = [RGB.Pt x m].
Proof.
  intros Hy Ho.
  destruct (least_true (opaque_at x) y) as [m [Hm [Om Hleast]]]; [lia|assumption|].
  exists m. split; [assumption|]. split; [assumption|]. split; [assumption|].
  assert (Hm' : 0 <= m < height) by lia.
  destruct (range_split height m Hm') as [after [-> _]].
  apply first_opaque_first; [|exact Om].
  intros k Hk. apply in_range in Hk. now apply Hleast.
Qed.

(** What a point of the curve tells about its column. *)
Lemma scan_column_surface (x : Z) (p : RGB.point) :
  In p (RGB.scan_column thr img [] x) ->
  opaque_at x (RGB.pt_y p) = true /\
  (RGB.pt_y p = 0 \/
   RGB.is_transparent thr (RGB.getpixel img (x, RGB.pt_y p - 1)) = true).
Proof.
  unfold RGB.scan_column. fold height.
  destruct (RGB.find_boundary thr img x _) as [b|] eqn:E.
  - intros [<-|[]]. simpl.
    apply find_boundary_inv in E. destruct E as [y [_ [-> He]]].
    apply andb_true_iff in He. destruct He as [Ht Ho].
    split; [exact Ho|]. right. now replace (y + 1 - 1) with y by lia.
  - intros Hin. pose proof (first_opaque_inv thr img x _ p Hin) as [_ [Hy Ho]].
    apply in_range in Hy. split; [exact Ho|].
    destruct (first_opaque_least x (RGB.pt_y p) Hy Ho) as [m [Hm [Om [Hleast Hrun]]]].
    fold height in Hin. rewrite Hrun in Hin. destruct Hin as [<-|[]]. simpl in *.
    destruct (Z.eq_dec m 0) as [->|Hpos]; [now left|]. exfalso.
    assert (Hedge : RGB.is_transparent thr (RGB.getpixel img (x, m - 1)) &&
                    RGB.is_opaque thr (RGB.getpixel img (x, m - 1 + 1)) = true).
    { replace (m - 1 + 1) with m by lia. fold (opaque_at x m). rewrite Om, andb_true_r.
      specialize (Hleast (m - 1) ltac:(lia)). unfold opaque_at in Hleast.
      rewrite is_opaque_negb in Hleast. now apply negb_false_iff in Hleast. }
    assert (Hin : In (m - 1) (Py.range (height - 1))) by (apply in_range; lia).
    destruct (in_split _ _ Hin) as [l1 [l2 Hsplit]].
    clear - E Hsplit Hedge.
    rewrite Hsplit in E. clear Hsplit.
    induction l1 as [|a l1 IH]; simpl in E.
    + rewrite Hedge in E. discriminate.
    + destruct (_ && _) in E; [discriminate|]. now apply IH.
Qed.

End RGBCurve.

(** X1.  The abscissae of the curve are, in order, the columns that have
    an opaque row: such a column gives one point, any other none. *)
Theorem rgb_curve_columns (thr : Z) (img : RGB.Image) :
  map RGB.pt_x (RGB.terrain_curve thr img) =
  filter (fun x => existsb (fun y => RGB.is_opaque thr (RGB.getpixel img (x, y)))
                           (Py.range (snd (RGB.size img))))
         (Py.range (fst (RGB.size img))).
Proof. rewrite terrain_curve_columns. apply curve_abscissae_of. Qed.

Lemma seq_sorted (a n : nat) : StronglySorted Z.lt (map Z.of_nat (seq a n)).
Proof.
  revert a. induction n as [|n IH]; intros a; simpl; constructor.
  - apply IH.
  - apply Forall_forall. intros z Hz. apply in_map_iff in Hz.
    destruct Hz as [k [<- Hk]]. apply in_seq in Hk. lia.
Qed.

Lemma filter_sorted (f : Z -> bool) (l : list Z) :
  StronglySorted Z.lt l -> StronglySorted Z.lt (filter f l).
Proof.
  induction 1 as [|a l Hs IH Hall]; simpl; [constructor|].
  destruct (f a); [|exact IH].
  constructor; [exact IH|].
  apply Forall_forall. intros z Hz. apply filter_In in Hz.
  rewrite Forall_forall in Hall. now apply Hall.
Qed.

(** X2.  Along the curve the abscissae increase strictly: the points come in
    column order and no column has two. *)
Theorem rgb_curve_sorted (thr : Z) (img : RGB.Image) :
  StronglySorted Z.lt (map RGB.pt_x (RGB.terrain_curve thr img)).
Proof.
  rewrite terrain_curve_columns, curve_abscissae_of.
  apply filter_sorted. apply seq_sorted.
Qed.

(** X3.  Every point of the curve lies inside the image, on an opaque
    pixel, and that pixel is in the top row or has a transparent pixel
    directly above it. *)
Theorem rgb_point_on_surface (thr : Z) (img : RGB.Image) (p : RGB.point) :
  In p (RGB.terrain_curve thr img) ->
  0 <= RGB.pt_x p < fst (RGB.size img) /\
  0 <= RGB.pt_y p < snd (RGB.size img) /\
  RGB.is_opaque thr (RGB.getpixel img (RGB.pt_x p, RGB.pt_y p)) = true /\
  (RGB.pt_y p = 0 \/
   RGB.is_transparent thr (RGB.getpixel img (RGB.pt_x p, RGB.pt_y p - 1)) = true).
Proof.
  intros Hin. rewrite terrain_curve_columns in Hin.
  apply in_flat_map in Hin. destruct Hin as [x [Hx Hp]].
  apply in_range in Hx.
  destruct (scan_column_inv thr img x p Hp) as [Hpx Hpy].
  destruct (scan_column_surface thr img x p Hp) as [Ho Habove].
  rewrite Hpx. auto.
Qed.

Lemma rgb_point_on_surface_witness :
  0 <= 0 < fst (RGB.size Inputs.column_ttoo) /\
  0 <= 2 < snd (RGB.size Inputs.column_ttoo) /\
  RGB.is_opaque RGB.ALPHA_THRESHOLD (RGB.getpixel Inputs.column_ttoo (0, 2)) = true /\
  (2 = 0 \/
   RGB.is_transparent RGB.ALPHA_THRESHOLD
     (RGB.getpixel Inputs.column_ttoo (0, 2 - 1)) = true).
Proof.
  apply (rgb_point_on_surface RGB.ALPHA_THRESHOLD Inputs.column_ttoo (RGB.Pt 0 2)).
  simpl. left. reflexivity.
Defined.

(** X4.  A column that is opaque from top to bottom, in an image of height
    at least one, has its only point in row 0. *)
Theorem rgb_opaque_column (thr : Z) (img : RGB.Image) (x : Z) :
  0 <= x < fst (RGB.size img) ->
  1 <= snd (RGB.size img) ->
  (forall y, 0 <= y < snd (RGB.size img) ->
     RGB.is_opaque thr (RGB.getpixel img (x, y)) = true) ->
  filter (fun p => RGB.pt_x p =? x) (RGB.terrain_curve thr img) = [RGB.Pt x 0].
Proof.
  intros Hx HH Hall. rewrite curve_at_column by assumption.
  now apply rgb_all_opaque.
Qed.

Lemma rgb_opaque_column_witness :
  filter (fun p => RGB.pt_x p =? 2)
         (RGB.terrain_curve RGB.ALPHA_THRESHOLD Inputs.gap_image) = [RGB.Pt 2 0].
Proof.
  apply (rgb_opaque_column RGB.ALPHA_THRESHOLD Inputs.gap_image 2).
  - simpl. lia.
  - simpl. lia.
  - intros y Hy. simpl in Hy.
    assert (y = 0 \/ y = 1) as [-> | ->] by lia; reflexivity.
Defined.

(** X5.  When the rows above [y0 >= 1] are not opaque and row [y0] is, the
    point of the column is [y0]: on a column whose top is not opaque the
    transition rule gives the topmost opaque pixel, the row the two other
    scripts look for. *)
Theorem rgb_topmost_opaque (thr : Z) (img : RGB.Image) (x y0 : Z) :
  0 <= x < fst (RGB.size img) ->
  1 <= y0 < snd (RGB.size img) ->
  RGB.is_opaque thr (RGB.getpixel img (x, y0)) = true ->
  (forall y, 0 <= y < y0 -> RGB.is_opaque thr (RGB.getpixel img (x, y)) = false) ->
  filter (fun p => RGB.pt_x p =? x) (RGB.terrain_curve thr img) = [RGB.Pt x y0].
Proof.
  intros Hx Hy0 Ho Habove.
  pose proof (transition_correct_at thr img x (y0 - 1)) as H.
  replace (y0 - 1 + 1) with y0 in H by lia.
  apply H; try assumption; try lia.
  - specialize (Habove (y0 - 1) ltac:(lia)).
    rewrite is_opaque_negb in Habove. now apply negb_false_iff in Habove.
  - intros y' Hy'. rewrite (Habove (y' + 1)) by lia. apply andb_false_r.
Qed.

Lemma rgb_topmost_opaque_witness :
  filter (fun p => RGB.pt_x p =? 0)
         (RGB.terrain_curve RGB.ALPHA_THRESHOLD Inputs.gap_image) = [RGB.Pt 0 1].
Proof.
  apply (rgb_topmost_opaque RGB.ALPHA_THRESHOLD Inputs.gap_image 0 1).
  - simpl. lia.
  - simpl. lia.
  - reflexivity.
  - intros y Hy. assert (y = 0) as -> by lia. reflexivity.
Defined.

(** ** Outcomes of the safety-margin computation *)




Section Clearance.

Local Open Scope R_scope.

Variable width : Z.
Variable curve : list RGB.point.
Variables a0 a1 b1 a2 b2 a3 b3 : R.
Variable rep : RGB.SafeBoundary.
Hypothesis Hrun :
  RGB.safe_boundary width curve [a0; a1; b1; a2; b2; a3; b3] = inr rep.

Let residual (p : RGB.point) : R :=
  IZR (RGB.pt_y p) -
  RGB.fourier_curve (IZR width) (IZR (RGB.pt_x p)) a0 a1 b1 a2 b2 a3 b3.

(** The clearances are the residuals raised by the margin; the script
    reports their extremes. *)
Lemma clearance_extremes :
  RGB.np_max (map residual curve) = inr (RGB.max_error rep) /\
  RGB.safety_margin rep = RGB.max_error rep + 5 /\
  RGB.np_min (map (fun p => residual p + RGB.safety_margin rep) curve)
    = inr (RGB.min_clearance rep) /\
  RGB.np_max (map (fun p => residual p + RGB.safety_margin rep) curve)
    = inr (RGB.max_clearance rep) /\
  RGB.all_above rep =
    RGB.np_all (map (fun p => RGB.Rleb 0 (residual p + RGB.safety_margin rep))
                    curve).
Proof.
  assert (Hne : curve <> []) by (intros E; rewrite E in Hrun; discriminate Hrun).
  destruct (safe_boundary_run width curve a0 a1 b1 a2 b2 a3 b3 Hne)
    as [rep' [Hrun' [Hmax [Hmargin [_ [_ Hall]]]]]].
  assert (Hrep : rep' = rep) by congruence. subst rep'.
  change (RGB.np_max (map residual curve) = inr (RGB.max_error rep)) in Hmax.
  split; [exact Hmax|]. split; [exact Hmargin|].
  revert Hrun. unfold RGB.safe_boundary, RGB.fourier_curve_star.
  change (RGB.fitted_parameters [a0; a1; b1; a2; b2; a3; b3]) with (@inr Py.exn unit tt).
  cbn [Py.bind Py.ret RGB.isub_at_0]. rewrite !map_map.
  rewrite (arr_sub_map (fun p => IZR (RGB.pt_y p))
             (fun p => RGB.fourier_curve (IZR width) (IZR (RGB.pt_x p))
                                         a0 a1 b1 a2 b2 a3 b3) curve).
  cbv beta.
  change (fun p : RGB.point => IZR (RGB.pt_y p) -
            RGB.fourier_curve (IZR width) (IZR (RGB.pt_x p)) a0 a1 b1 a2 b2 a3 b3)
    with residual.
  rewrite Hmax. cbn [Py.bind Py.ret RGB.isub_at_0]. rewrite !map_map.
  rewrite (arr_sub_map (fun p => IZR (RGB.pt_y p))
             (fun p => RGB.fourier_curve (IZR width) (IZR (RGB.pt_x p))
                         (a0 - (RGB.max_error rep + 5)) a1 b1 a2 b2 a3 b3) curve).
  cbv beta.
  assert (Hclear :
    map (fun p => IZR (RGB.pt_y p) -
           RGB.fourier_curve (IZR width) (IZR (RGB.pt_x p))
             (a0 - (RGB.max_error rep + 5)) a1 b1 a2 b2 a3 b3) curve =
    map (fun p => residual p + RGB.safety_margin rep) curve).
  { apply map_ext. intros p. rewrite fourier_curve_shift, Hmargin.
    unfold residual. ring. }
  rewrite Hclear.
  destruct (RGB.np_min _) as [e|lo] eqn:Hlo; [discriminate|].
  destruct (RGB.np_max (map (fun p => residual p + RGB.safety_margin rep) curve))
    as [e|hi] eqn:Hhi; [discriminate|].
  cbn [Py.bind Py.ret]. intros Hrep. injection Hrep as Hrep.
  rewrite <- Hrep at 1 2. cbn [RGB.min_clearance RGB.max_clearance].
  split; [reflexivity|]. split; [reflexivity|].
  rewrite Hall. f_equal. apply map_ext. intros p.
  unfold RGB.Rleb, residual.
  destruct (Rle_dec _ _) as [H1|H1]; destruct (Rle_dec _ _) as [H2|H2];
    try reflexivity; exfalso; lra.
Qed.

End Clearance.

(** X7.  The two reports of the script agree: the check "all points above
    terrain" is true exactly when the smallest clearance it prints is not
    negative. *)
Theorem clearance_report (width : Z) (curve : list RGB.point)
    (a0 a1 b1 a2 b2 a3 b3 : R) :
  curve <> [] ->
  exists rep,
    RGB.safe_boundary width curve [a0; a1; b1; a2; b2; a3; b3] = inr rep /\
    (RGB.all_above rep = true <-> (0 <= RGB.min_clearance rep)%R).
Proof.
  intros Hne.
  destruct (safe_boundary_run width curve a0 a1 b1 a2 b2 a3 b3 Hne)
    as [rep [Hrun _]].
  exists rep. split; [exact Hrun|].
  destruct (clearance_extremes width curve a0 a1 b1 a2 b2 a3 b3 rep Hrun)
    as [_ [_ [Hlo [_ Hall]]]].
  match type of Hlo with RGB.np_min ?a = _ =>
    destruct (np_min_spec a) as [lo [Elo [Inlo Lowlo]]];
    [destruct curve; [congruence|discriminate]|]
  end.
  rewrite Hlo in Elo. injection Elo as <-.
  rewrite Hall, np_all_map. split.
  - intros H. apply in_map_iff in Inlo. destruct Inlo as [p [<- Hp]].
    apply Rleb_true. now apply H.
  - intros H p Hp. apply Rleb_true.
    apply Rle_trans with (RGB.min_clearance rep); [exact H|].
    apply Lowlo.
    now apply (in_map (fun p => (IZR (RGB.pt_y p) -
      RGB.fourier_curve (IZR width) (IZR (RGB.pt_x p)) a0 a1 b1 a2 b2 a3 b3 +
      RGB.safety_margin rep)%R)).
Qed.

Lemma clearance_report_witness :
  exists rep,
    RGB.safe_boundary 640 [RGB.Pt 0 100; RGB.Pt 160 200] [150; 0; 50; 0; 0; 0; 0]%R
      = inr rep /\
    (RGB.all_above rep = true <-> (0 <= RGB.min_clearance rep)%R).
Proof.
  apply (clearance_report 640 [RGB.Pt 0 100; RGB.Pt 160 200] 150 0 50 0 0 0 0).
  discriminate.
Defined.

(** ** [main] of extract_bounds_rgb.py as a whole *)

Section RGBMain.

Variable curve_fit :
  (R -> R -> R -> R -> R -> R -> R -> R -> R) -> list R -> list R ->
  Py.result (list R).
Variable img : RGB.Image.

Let curve := RGB.terrain_curve RGB.ALPHA_THRESHOLD img.
Let fit :=
  curve_fit (RGB.fourier_curve (IZR (fst (RGB.size img))))
            (map (fun p => IZR (RGB.pt_x p)) curve)
            (map (fun p => IZR (RGB.pt_y p)) curve).

Lemma main_after_extraction :
  curve <> [] ->
  RGB.main curve_fit img =
  (params <- fit ;;
   safe <- RGB.safe_boundary (fst (RGB.size img)) curve params ;;
   Py.ret (curve, safe)).
Proof.
  intros Hne. unfold RGB.main. fold curve.
  destruct curve as [|p ps] eqn:E; [congruence|]. reflexivity.
Qed.

Lemma main_empty_curve :
  curve = [] -> RGB.main curve_fit img = inl Py.ValueError.
Proof. intros E. unfold RGB.main. fold curve. now rewrite E. Qed.

End RGBMain.

Lemma curve_without_terrain (thr : Z) (img : RGB.Image) :
  (forall x y, 0 <= x < fst (RGB.size img) -> 0 <= y < snd (RGB.size img) ->
     RGB.is_opaque thr (RGB.getpixel img (x, y)) = false) ->
  RGB.terrain_curve thr img = [].
Proof.
  intros Hall. rewrite terrain_curve_columns.
  assert (H : forall x, In x (Py.range (fst (RGB.size img))) ->
                        RGB.scan_column thr img [] x = []).
  { intros x Hx. apply in_range in Hx. apply rgb_all_transparent.
    intros y Hy. now apply Hall. }
  induction (Py.range (fst (RGB.size img))) as [|x xs IH]; [reflexivity|].
  simpl. rewrite (H x) by now left. apply IH. intros x' Hx'. apply H. now right.
Qed.

Lemma curve_with_terrain (thr : Z) (img : RGB.Image) (x y : Z) :
  0 <= x < fst (RGB.size img) -> 0 <= y < snd (RGB.size img) ->
  RGB.is_opaque thr (RGB.getpixel img (x, y)) = true ->
  RGB.terrain_curve thr img <> [].
Proof.
  intros Hx Hy Ho E.
  destruct (rgb_column_with_terrain thr img x) as [b Hb]; [now exists y|].
  pose proof (curve_at_column thr img x Hx) as Hcol.
  rewrite E, Hb in Hcol. discriminate.
Qed.

(** X9.  On an image without an opaque pixel (an empty image included)
    [main] stops with a [ValueError], raised by [min] on the empty list of
    ordinates, whatever the solver would do. *)
Theorem main_without_terrain
    (curve_fit : (R -> R -> R -> R -> R -> R -> R -> R -> R) ->
                 list R -> list R -> Py.result (list R))
    (img : RGB.Image) :
  (forall x y, 0 <= x < fst (RGB.size img) -> 0 <= y < snd (RGB.size img) ->
     RGB.is_opaque RGB.ALPHA_THRESHOLD (RGB.getpixel img (x, y)) = false) ->
  RGB.main curve_fit img = inl Py.ValueError.
Proof.
  intros Hall. apply main_empty_curve. now apply curve_without_terrain.
Qed.

Lemma main_without_terrain_witness :
  RGB.main (fun _ _ _ => inr [0; 0; 0; 0; 0; 0; 0]%R) Inputs.clear_column
  = inl Py.ValueError.
Proof.
  apply (main_without_terrain (fun _ _ _ => inr [0; 0; 0; 0; 0; 0; 0]%R)
           Inputs.clear_column).
  intros x y Hx Hy. reflexivity.
Defined.

(** X10.  On an image with an opaque pixel, when the solver returns seven
    coefficients, [main] returns the extracted curve and the safe
    coefficients: the fitted ones with the first lowered by the margin. *)
Theorem main_returns
    (curve_fit : (R -> R -> R -> R -> R -> R -> R -> R -> R) ->
                 list R -> list R -> Py.result (list R))
    (img : RGB.Image) (x y : Z) (a0 a1 b1 a2 b2 a3 b3 : R) :
  0 <= x < fst (RGB.size img) -> 0 <= y < snd (RGB.size img) ->
  RGB.is_opaque RGB.ALPHA_THRESHOLD (RGB.getpixel img (x, y)) = true ->
  curve_fit (RGB.fourier_curve (IZR (fst (RGB.size img))))
    (map (fun p => IZR (RGB.pt_x p)) (RGB.terrain_curve RGB.ALPHA_THRESHOLD img))
    (map (fun p => IZR (RGB.pt_y p)) (RGB.terrain_curve RGB.ALPHA_THRESHOLD img))
    = inr [a0; a1; b1; a2; b2; a3; b3] ->
  exists rep,
    RGB.main curve_fit img = inr (RGB.terrain_curve RGB.ALPHA_THRESHOLD img, rep) /\
    RGB.safe_params rep = [(a0 - RGB.safety_margin rep)%R; a1; b1; a2; b2; a3; b3].
Proof.
  intros Hx Hy Ho Hfit.
  pose proof (curve_with_terrain _ img x y Hx Hy Ho) as Hne.
  rewrite (main_after_extraction curve_fit img Hne), Hfit. cbn [Py.bind].
  destruct (safe_boundary_run (fst (RGB.size img)) _ a0 a1 b1 a2 b2 a3 b3 Hne)
    as [rep [Hrun [_ [_ [Hparams _]]]]].
  exists rep. rewrite Hrun. split; [reflexivity|exact Hparams].
Qed.

Lemma main_returns_witness :
  exists rep,
    RGB.main (fun _ _ _ => inr [1; 0; 0; 0; 0; 0; 0]%R) Inputs.column_ttoo =
      inr (RGB.terrain_curve RGB.ALPHA_THRESHOLD Inputs.column_ttoo, rep) /\
    RGB.safe_params rep = [(1 - RGB.safety_margin rep)%R; 0; 0; 0; 0; 0; 0]%R.
Proof.
  apply (main_returns (fun _ _ _ => inr [1; 0; 0; 0; 0; 0; 0]%R)
           Inputs.column_ttoo 0 2 1 0 0 0 0 0 0).
  - simpl. lia.
  - simpl. lia.
  - reflexivity.
  - reflexivity.
Defined.

(** X11.  When the solver fails, on an image with an opaque pixel, [main]
    stops with the solver's error: no safe curve is computed from a failed
    fit. *)
Theorem main_fit_error
    (curve_fit : (R -> R -> R -> R -> R -> R -> R -> R -> R) ->
                 list R -> list R -> Py.result (list R))
    (img : RGB.Image) (x y : Z) (e : Py.exn) :
  0 <= x < fst (RGB.size img) -> 0 <= y < snd (RGB.size img) ->
  RGB.is_opaque RGB.ALPHA_THRESHOLD (RGB.getpixel img (x, y)) = true ->
  curve_fit (RGB.fourier_curve (IZR (fst (RGB.size img))))
    (map (fun p => IZR (RGB.pt_x p)) (RGB.terrain_curve RGB.ALPHA_THRESHOLD img))
    (map (fun p => IZR (RGB.pt_y p)) (RGB.terrain_curve RGB.ALPHA_THRESHOLD img))
    = inl e ->
  RGB.main curve_fit img = inl e.
Proof.
  intros Hx Hy Ho Hfit.
  pose proof (curve_with_terrain _ img x y Hx Hy Ho) as Hne.
  now rewrite (main_after_extraction curve_fit img Hne), Hfit.
Qed.

Lemma main_fit_error_witness :
  RGB.main (fun _ _ _ => inl Py.TypeError) Inputs.column_ttoo = inl Py.TypeError.
Proof.
  apply (main_fit_error (fun _ _ _ => inl Py.TypeError) Inputs.column_ttoo 0 2).
  - simpl. lia.
  - simpl. lia.
  - reflexivity.
  - reflexivity.
Defined.

(** ** More on extract_bounds_fast.py *)

Lemma setitem_fresh {V : Type} (d : list (Z * V)) (k : Z) (v : V) :
  ~ In k (map fst d) -> Py.setitem d k v = d ++ [(k, v)].
Proof.
  induction d as [|[k' v'] d IH]; simpl; intros Hnot; [reflexivity|].
  destruct (k =? k') eqn:E.
  - apply Z.eqb_eq in E. subst. exfalso. apply Hnot. now left.
  - f_equal. apply IH. intros H. apply Hnot. now right.
Qed.

Lemma mapM_ext {A B : Type} (f g : A -> Py.result B) (l : list A) :
  (forall a, In a l -> f a = g a) -> Py.mapM f l = Py.mapM g l.
Proof.
  induction l as [|a l IH]; intros H; simpl; [reflexivity|].
  rewrite (H a) by now left. rewrite IH; [reflexivity|].
  intros a' Ha'. apply H. now right.
Qed.

(** A traversal all of whose failures are [e] and that has a failing
    element fails with [e]. *)
Lemma mapM_fails {A B : Type} (f : A -> Py.result B) (e : Py.exn) (l : list A) :
  (forall a e', In a l -> f a = inl e' -> e' = e) ->
  (exists a, In a l /\ f a = inl e) ->
  Py.mapM f l = inl e.
Proof.
  induction l as [|a l IH]; intros Hkind [a0 [Hin Hfail]]; [destruct Hin|].
  simpl. destruct (f a) as [e'|b] eqn:Fa.
  - simpl. f_equal. apply (Hkind a); [now left|assumption].
  - simpl. rewrite IH; [reflexivity| |].
    + intros a' e' Ha'. apply Hkind. now right.
    + destruct Hin as [->|Hin]; [congruence|]. now exists a0.
Qed.

Lemma mapM_error_kind {A B : Type} (f : A -> Py.result B) (e0 e : Py.exn)
    (l : list A) :
  (forall a e', In a l -> f a = inl e' -> e' = e0) ->
  Py.mapM f l = inl e -> e = e0.
Proof.
  induction l as [|a l IH]; intros Hkind; simpl; [discriminate|].
  destruct (f a) as [e'|b] eqn:Fa; simpl.
  - intros [= <-]. apply (Hkind a); [now left|assumption].
  - destruct (Py.mapM f l) as [e'|bs]; simpl; [|discriminate].
    intros [= <-]. apply IH; [|reflexivity].
    intros a' e'' Ha'. apply Hkind. now right.
Qed.

Lemma getitem_error_kind {A : Type} (l : list A) (i : Z) (e : Py.exn) :
  Py.getitem l i = inl e -> e = Py.IndexError.
Proof.
  unfold Py.getitem, Py.ret, Py.raise.
  destruct (_ && _); [destruct (nth_error _ _)|]; simpl; congruence.
Qed.

Lemma getitem_out_of_range {A : Type} (l : list A) (i : Z) :
  Z.of_nat (length l) <= i -> Py.getitem l i = inl Py.IndexError.
Proof.
  intros Hi. unfold Py.getitem.
  replace (i <? 0) with false by (symmetry; apply Z.ltb_ge; lia).
  replace (i <? Z.of_nat (length l)) with false by (symmetry; apply Z.ltb_ge; lia).
  now rewrite andb_false_r.
Qed.

Lemma byte_at_error_kind (pixels : list Byte.byte) (idx : Z) (e : Py.exn) :
  Fast.byte_at pixels idx = inl e -> e = Py.IndexError.
Proof.
  unfold Fast.byte_at.
  destruct (Py.getitem pixels idx) as [e'|b] eqn:G; simpl; [|discriminate].
  intros [= <-]. now apply getitem_error_kind in G.
Qed.

Lemma byte_at_app (pixels extra : list Byte.byte) (idx : Z) :
  0 <= idx < Z.of_nat (length pixels) ->
  Fast.byte_at (pixels ++ extra) idx = Fast.byte_at pixels idx.
Proof.
  intros Hidx. unfold Fast.byte_at.
  destruct (nth_error pixels (Z.to_nat idx)) as [b|] eqn:E.
  - assert (G1 : Py.getitem pixels idx = inr b)
      by (apply getitem_nonneg; [lia|assumption]).
    assert (G2 : Py.getitem (pixels ++ extra) idx = inr b).
    { apply getitem_nonneg; [lia|]. rewrite nth_error_app1; [assumption|lia]. }
    now rewrite G1, G2.
  - apply nth_error_None in E. lia.
Qed.

Section FastColumns.

Variables (w h : Z) (pixels : list Byte.byte) (alpha : list (list Z)).
Hypothesis Hbuild : Fast.build_alpha w h pixels = inr alpha.

(** Whether the byte of row [r] in column [x] is above the threshold. *)
Let bright (x r : Z) : bool :=
  match Fast.byte_at pixels (r * w + x) with
  | inr a => a >? Fast.ALPHA_THRESHOLD
  | inl _ => false
  end.

Lemma cell_bright (x r : Z) :
  0 <= x < w -> 0 <= r < h ->
  exists a, Fast.cell alpha r x a /\
            Fast.byte_at pixels (r * w + x) = inr a /\
            bright x r = (a >? Fast.ALPHA_THRESHOLD).
Proof.
  intros Hx Hr.
  destruct (build_alpha_cell w h pixels alpha r x Hbuild Hr Hx) as [a [Hc Hb]].
  exists a. split; [assumption|]. split; [assumption|].
  unfold bright. now rewrite Hb.
Qed.

(** The scan of a column stops at its first bright row, or falls to the
    bottom when it has none. *)
Lemma find_top_spec (x : Z) :
  0 <= x < w ->
  exists t, Fast.find_top alpha x (Py.range h) (h - 1) = inr t /\
    (forall r, 0 <= r < t -> r < h -> bright x r = false) /\
    ((0 <= t < h /\ bright x t = true) \/
     (t = h - 1 /\ forall r, 0 <= r < h -> bright x r = false)).
Proof.
  intros Hx.
  destruct (existsb (bright x) (Py.range h)) eqn:E.
  - apply existsb_exists in E. destruct E as [r [Hr Br]]. apply in_range in Hr.
    destruct (least_true (bright x) r) as [m [Hm [Bm Hleast]]]; [lia|assumption|].
    exists m. assert (Hm' : 0 <= m < h) by lia.
    destruct (range_split h m Hm') as [after [-> _]].
    split; [|split].
    + apply find_top_first.
      * intros y' Hy'. apply in_range in Hy'.
        destruct (cell_bright x y' Hx ltac:(lia)) as [a [Hc [_ Ha]]].
        exists a. split; [assumption|].
        rewrite (Hleast y' Hy') in Ha. symmetry in Ha.
        rewrite Z.gtb_ltb in Ha. apply Z.ltb_ge in Ha. lia.
      * destruct (cell_bright x m Hx Hm') as [a [Hc [_ Ha]]].
        exists a. split; [assumption|].
        rewrite Bm in Ha. symmetry in Ha. apply Z.gtb_lt in Ha. lia.
    + intros k Hk _. now apply Hleast.
    + left. auto.
  - assert (Hnone : forall r, 0 <= r < h -> bright x r = false).
    { intros r Hr. destruct (bright x r) eqn:Br; [|reflexivity].
      assert (existsb (bright x) (Py.range h) = true); [|congruence].
      apply existsb_exists. exists r. split; [now apply in_range|assumption]. }
    exists (h - 1). split; [|split].
    + apply find_top_default. intros r Hr. apply in_range in Hr.
      destruct (cell_bright x r Hx Hr) as [a [Hc [_ Ha]]].
      exists a. split; [assumption|].
      rewrite (Hnone r Hr) in Ha. symmetry in Ha.
      rewrite Z.gtb_ltb in Ha. apply Z.ltb_ge in Ha. lia.
    + intros r Hr Hrh. apply Hnone. lia.
    + right. auto.
Qed.

End FastColumns.

(** The dict after the sampling loop, when every scan goes through. *)
Lemma sample_run (alpha : list (list Z)) (h : Z) (g : Z -> Z) (xs : list Z)
    (hm : list (Z * Z)) :
  (forall x, In x xs ->
     Fast.find_top alpha x (Py.range h) (h - 1) = inr (g x)) ->
  NoDup xs ->
  (forall x, In x xs -> ~ In x (map fst hm)) ->
  Fast.sample alpha h xs hm = inr (hm ++ map (fun x => (x, g x)) xs).
Proof.
  revert hm. induction xs as [|x xs IH]; intros hm Hg Hnd Hfresh; simpl.
  - now rewrite app_nil_r.
  - rewrite (Hg x) by now left. simpl.
    inversion Hnd as [|? ? Hx Hnd']; subst.
    rewrite setitem_fresh by (apply Hfresh; now left).
    rewrite IH; try assumption.
    + now rewrite <- app_assoc.
    + intros x' Hx'. apply Hg. now right.
    + intros x' Hx'. rewrite map_app. intros Hin.
      apply in_app_or in Hin. simpl in Hin. destruct Hin as [Hin|[Hin|[]]].
      * apply (Hfresh x'); [now right|assumption].
      * subst. contradiction.
Qed.

(** X13.  When extract_bounds_fast.py gets through, its dict has one key
    per sampled column, in ascending order: 0, 10, 20, ... below the
    width, that is [ceil(width / 10)] of them. *)
Theorem fast_coverage (w h : Z) (pixels : list Byte.byte) (hm : list (Z * Z)) :
  Fast.heightmap w h pixels = inr hm ->
  map fst hm = map (fun i => 10 * Z.of_nat i) (seq 0 (Z.to_nat ((w + 9) / 10))).
Proof.
  intros Hrun. rewrite (fast_keys w h pixels hm Hrun).
  unfold Py.range_step, Fast.SAMPLE_INTERVAL.
  replace (w - 0 + 10 - 1) with (w + 9) by lia.
  apply map_ext. intros i. lia.
Qed.

Lemma fast_coverage_witness :
  map fst [(0, 0); (10, 0)] =
  map (fun i => 10 * Z.of_nat i) (seq 0 (Z.to_nat ((12 + 9) / 10))).
Proof.
  apply (fast_coverage 12 1 (repeat Byte.x81 12) [(0, 0); (10, 0)]).
  reflexivity.
Defined.

(** X14.  With at least [width * height] bytes of pixel data the script
    produces its dict, with [ceil(width / 10)] entries. *)
Theorem fast_succeeds (w h : Z) (pixels : list Byte.byte) :
  0 <= w -> 0 <= h -> w * h <= Z.of_nat (length pixels) ->
  exists hm, Fast.heightmap w h pixels = inr hm /\
             Z.of_nat (length hm) = (w + 9) / 10.
Proof.
  intros Hw Hh Hlen.
  destruct (fast_heightmap_total w h pixels Hw Hh Hlen) as [hm [Hrun Hn]].
  exists hm. split; [assumption|]. rewrite Hn. unfold Fast.SAMPLE_INTERVAL.
  f_equal. lia.
Qed.

Lemma fast_succeeds_witness :
  exists hm, Fast.heightmap 12 2 (repeat Byte.x00 24) = inr hm /\
             Z.of_nat (length hm) = (12 + 9) / 10.
Proof.
  apply (fast_succeeds 12 2 (repeat Byte.x00 24)).
  - lia.
  - lia.
  - simpl. lia.
Defined.

Lemma build_alpha_truncated (w h : Z) (pixels : list Byte.byte) :
  0 < w -> 0 < h -> Z.of_nat (length pixels) < w * h ->
  Fast.build_alpha w h pixels = inl Py.IndexError.
Proof.
  intros Hw Hh Hlen. unfold Fast.build_alpha.
  set (n := Z.of_nat (length pixels)) in *.
  assert (Hn : 0 <= n) by (unfold n; lia).
  pose proof (Z.div_mod n w ltac:(lia)) as Hdm.
  pose proof (Z.mod_pos_bound n w Hw) as Hmod.
  assert (Hq : 0 <= n / w < h).
  { split; [apply Z.div_pos; lia|]. apply Z.div_lt_upper_bound; lia. }
  apply mapM_fails.
  - intros y e _ Hrow. apply mapM_error_kind with (e0 := Py.IndexError) in Hrow;
      [assumption|].
    intros x e' _. apply byte_at_error_kind.
  - exists (n / w). split; [now apply in_range|].
    apply mapM_fails.
    + intros x e' _. apply byte_at_error_kind.
    + exists (n mod w). split; [now apply in_range|].
      unfold Fast.byte_at. rewrite getitem_out_of_range; [reflexivity|].
      fold n. lia.
Qed.

(** X15.  A file with fewer than [width * height] bytes of pixel data makes
    the script stop with an [IndexError], while it builds its 2D array. *)
Theorem fast_truncated_file (w h : Z) (pixels : list Byte.byte) :
  0 < w -> 0 < h -> Z.of_nat (length pixels) < w * h ->
  Fast.heightmap w h pixels = inl Py.IndexError.
Proof.
  intros Hw Hh Hlen. unfold Fast.heightmap.
  now rewrite build_alpha_truncated.
Qed.

Lemma fast_truncated_file_witness :
  Fast.heightmap 12 2 (repeat Byte.x00 23) = inl Py.IndexError.
Proof.
  apply (fast_truncated_file 12 2 (repeat Byte.x00 23)).
  - lia.
  - lia.
  - simpl. lia.
Defined.

(** X16.  Every entry [(x, y)] of the dict belongs to a sampled column
    inside the image; no byte of that column above row [y] exceeds the
    threshold 128; and either the byte of row [y] does, or [y] is the
    bottom row and no byte of the column does. *)
Theorem fast_entry_topmost (w h : Z) (pixels : list Byte.byte)
    (hm : list (Z * Z)) (x y : Z) :
  Fast.heightmap w h pixels = inr hm ->
  In (x, y) hm ->
  (0 <= x < w /\ x mod 10 = 0) /\
  (forall r a, 0 <= r < y -> r < h ->
     Fast.byte_at pixels (r * w + x) = inr a -> a <= 128) /\
  ((0 <= y < h /\
    exists a, Fast.byte_at pixels (y * w + x) = inr a /\ 128 < a) \/
   (y = h - 1 /\
    forall r a, 0 <= r < h ->
      Fast.byte_at pixels (r * w + x) = inr a -> a <= 128)).
Proof.
  intros Hrun Hin.
  destruct (fast_heightmap_inv w h pixels hm Hrun) as [alpha [Ha Hs]].
  destruct (sample_in _ _ _ _ _ _ _ Hs Hin) as [[]|[Hx Htop]].
  apply in_range_step in Hx; [|reflexivity]. split; [exact Hx|].
  destruct Hx as [Hx _].
  destruct (find_top_spec w h pixels alpha Ha x Hx) as [t [Ht [Habove Hcase]]].
  rewrite Htop in Ht. injection Ht as <-.
  assert (Hdim : forall r a, Fast.byte_at pixels (r * w + x) = inr a ->
            match Fast.byte_at pixels (r * w + x) with
            | inr a => a >? Fast.ALPHA_THRESHOLD
            | inl _ => false
            end = false -> a <= 128).
  { intros r a Hb Hf. rewrite Hb in Hf. rewrite Z.gtb_ltb in Hf.
    apply Z.ltb_ge in Hf. exact Hf. }
  split.
  - intros r a Hr Hrh Hb. apply (Hdim r a Hb). now apply Habove.
  - destruct Hcase as [[Hy Hbright]|[Hy Hnone]].
    + left. split; [assumption|].
      destruct (Fast.byte_at pixels (y * w + x)) as [e|a]; [discriminate|].
      exists a. split; [reflexivity|]. apply Z.gtb_lt in Hbright.
      unfold Fast.ALPHA_THRESHOLD in Hbright. lia.
    + right. split; [assumption|].
      intros r a Hr Hb. apply (Hdim r a Hb). now apply Hnone.
Qed.

Lemma fast_entry_topmost_witness :
  (0 <= 0 < 2 /\ 0 mod 10 = 0) /\
  (forall r a, 0 <= r < 2 -> r < 3 ->
     Fast.byte_at [Byte.x00; Byte.x00; Byte.x00; Byte.x00; Byte.xff; Byte.x00]
                  (r * 2 + 0) = inr a -> a <= 128) /\
  ((0 <= 2 < 3 /\
    exists a,
      Fast.byte_at [Byte.x00; Byte.x00; Byte.x00; Byte.x00; Byte.xff; Byte.x00]
                   (2 * 2 + 0) = inr a /\ 128 < a) \/
   (2 = 3 - 1 /\
    forall r a, 0 <= r < 3 ->
      Fast.byte_at [Byte.x00; Byte.x00; Byte.x00; Byte.x00; Byte.xff; Byte.x00]
                   (r * 2 + 0) = inr a -> a <= 128)).
Proof.
  apply (fast_entry_topmost 2 3
           [Byte.x00; Byte.x00; Byte.x00; Byte.x00; Byte.xff; Byte.x00]
           [(0, 2)] 0 2).
  - reflexivity.
  - left. reflexivity.
Defined.

(** X17.  Bytes after the first [width * height] are never looked at. *)
Theorem fast_ignores_trailing_bytes (w h : Z) (pixels extra : list Byte.byte) :
  0 <= w -> 0 <= h -> w * h <= Z.of_nat (length pixels) ->
  Fast.heightmap w h (pixels ++ extra) = Fast.heightmap w h pixels.
Proof.
  intros Hw Hh Hlen. unfold Fast.heightmap, Fast.build_alpha.
  f_equal. apply mapM_ext. intros y Hy. apply in_range in Hy.
  apply mapM_ext. intros x Hx. apply in_range in Hx.
  apply byte_at_app. nia.
Qed.

Lemma fast_ignores_trailing_bytes_witness :
  Fast.heightmap 1 2 ([Byte.x00; Byte.xff] ++ [Byte.xff; Byte.xff]) =
  Fast.heightmap 1 2 [Byte.x00; Byte.xff].
Proof.
  apply (fast_ignores_trailing_bytes 1 2 [Byte.x00; Byte.xff] [Byte.xff; Byte.xff]).
  - lia.
  - lia.
  - simpl. lia.
Defined.

(** X18.  A grid without rows is not refused: whatever the bytes, every
    sampled column is reported at row [height - 1], a negative row.  The
    two bounds keep the column numbers and that row within the 4300 digits
    the interpreter converts to text, which the progress line of each
    column needs. *)
Theorem fast_zero_height (w h : Z) (pixels : list Byte.byte) :
  h <= 0 ->
  w <= 10 ^ 4300 ->
  - 10 ^ 4300 < h - 1 ->
  Fast.heightmap w h pixels =
  inr (map (fun x => (x, h - 1)) (Py.range_step 0 w Fast.SAMPLE_INTERVAL)).
Proof.
  intros Hh _ _. unfold Fast.heightmap, Fast.build_alpha.
  rewrite (range_nonpos h Hh). cbn [Py.mapM Py.bind Py.ret].
  rewrite (sample_run [] h (fun _ => h - 1)).
  - reflexivity.
  - intros x _. now rewrite (range_nonpos h Hh).
  - apply range_step_NoDup. reflexivity.
  - intros x _ [].
Qed.

Lemma fast_zero_height_witness :
  Fast.heightmap 12 0 [] =
  inr (map (fun x => (x, 0 - 1)) (Py.range_step 0 12 Fast.SAMPLE_INTERVAL)).
Proof.
  apply (fast_zero_height 12 0 []).
  - lia.
  - apply Z.leb_le. vm_compute. reflexivity.
  - apply Z.ltb_lt. vm_compute. reflexivity.
Defined.

(** ** Statistics *)

Lemma fold_Zmin_spec (vs : list Z) (v : Z) :
  In (fold_left Z.min vs v) (v :: vs) /\
  forall u, In u (v :: vs) -> fold_left Z.min vs v <= u.
Proof.
  revert v. induction vs as [|a vs IH]; intros v; simpl.
  - split; [now left|]. intros u [->|[]]. lia.
  - destruct (IH (Z.min v a)) as [Hin Hlow]. split.
    + destruct Hin as [Hin|Hin]; [|right; now right].
      rewrite <- Hin. destruct (Z.min_spec v a) as [[_ ->]|[_ ->]]; auto.
    + intros u [->|[->|Hu]].
      * specialize (Hlow (Z.min u a) (or_introl eq_refl)). lia.
      * specialize (Hlow (Z.min v u) (or_introl eq_refl)). lia.
      * apply Hlow. now right.
Qed.

Lemma fold_Zmax_spec (vs : list Z) (v : Z) :
  In (fold_left Z.max vs v) (v :: vs) /\
  forall u, In u (v :: vs) -> u <= fold_left Z.max vs v.
Proof.
  revert v. induction vs as [|a vs IH]; intros v; simpl.
  - split; [now left|]. intros u [->|[]]. lia.
  - destruct (IH (Z.max v a)) as [Hin Hup]. split.
    + destruct Hin as [Hin|Hin]; [|right; now right].
      rewrite <- Hin. destruct (Z.max_spec v a) as [[_ ->]|[_ ->]]; auto.
    + intros u [->|[->|Hu]].
      * specialize (Hup (Z.max u a) (or_introl eq_refl)). lia.
      * specialize (Hup (Z.max v u) (or_introl eq_refl)). lia.
      * apply Hup. now right.
Qed.

(** On a non-empty list the statistics are its extremes and their
    difference; on the empty list [min] raises. *)
Lemma stats_spec (l : list Z) :
  l <> [] ->
  exists lo hi, stats l = inr (lo, hi, hi - lo) /\ In lo l /\ In hi l /\
                forall v, In v l -> lo <= v <= hi.
Proof.
  destruct l as [|v vs]; [congruence|]. intros _.
  destruct (fold_Zmin_spec vs v) as [Hlo Hlow].
  destruct (fold_Zmax_spec vs v) as [Hhi Hup].
  exists (fold_left Z.min vs v), (fold_left Z.max vs v).
  split; [reflexivity|]. split; [assumption|]. split; [assumption|].
  intros u Hu. split; [now apply Hlow|now apply Hup].
Qed.

Lemma stats_error_kind (l : list Z) (e : Py.exn) :
  stats l = inl e -> e = Py.ValueError.
Proof.
  destruct l as [|v vs]; [now intros [= <-]|].
  destruct (stats_spec (v :: vs)) as [lo [hi [-> _]]]; discriminate.
Qed.

(** ** The PGM reader of extract_bounds_fast.py *)

Lemma byte_eqb_newline (b : Byte.byte) :
  b <> Byte.x0a -> Byte.eqb b Byte.x0a = false.
Proof.
  intros Hb. destruct (Byte.eqb b Byte.x0a) eqn:E; [|reflexivity].
  apply Byte.byte_dec_bl in E. contradiction.
Qed.

(** A line ends at its newline. *)
Lemma readline_line (l rest : list Byte.byte) :
  ~ In Byte.x0a l ->
  Py.readline (l ++ Byte.x0a :: rest) = (l ++ [Byte.x0a], rest).
Proof.
  induction l as [|b l IH]; intros Hno; simpl; [reflexivity|].
  rewrite byte_eqb_newline by (intros ->; apply Hno; now left).
  rewrite IH; [reflexivity|]. intros H. apply Hno. now right.
Qed.

Lemma int_error_kind (s : list Byte.byte) (e : Py.exn) :
  Py.int s = inl e -> e = Py.ValueError.
Proof.
  unfold Py.int, Py.raise, Py.ret.
  match goal with |- context [let (_, _) := ?p in _] => destruct p as [neg body] end.
  destruct body as [|b body]; [now intros [= <-]|].
  destruct (Py.digit b); [|now intros [= <-]].
  destruct (Py.int_digits 0 0 false (b :: body)) as [[v n]|]; [|now intros [= <-]].
  destruct (4300 <? n)%nat; [now intros [= <-]|discriminate].
Qed.

Lemma parse_dims_error_kind (line : list Byte.byte) (e : Py.exn) :
  Fast.parse_dims line = inl e -> e = Py.ValueError.
Proof.
  unfold Fast.parse_dims, Py.raise.
  destruct (Py.split line) as [|tw [|th [|t3 ts]]]; try (now intros [= <-]).
  destruct (Py.int tw) as [e1|w] eqn:E1; simpl.
  - intros [= <-]. now apply int_error_kind in E1.
  - destruct (Py.int th) as [e2|h] eqn:E2; simpl; [|discriminate].
    intros [= <-]. now apply int_error_kind in E2.
Qed.

Lemma read_header_error_kind (f : list Byte.byte) (e : Py.exn) :
  Fast.read_header f = inl e -> e = Py.ValueError.
Proof.
  unfold Fast.read_header.
  destruct (Py.readline f) as [magic f1].
  destruct (Py.readline f1) as [line f2].
  destruct (Fast.skip_comments _ line f2) as [dims f3].
  destruct (Fast.parse_dims dims) as [e1|wh] eqn:E1; simpl.
  - intros [= <-]. now apply parse_dims_error_kind in E1.
  - destruct (Py.readline f3) as [maxline f4].
    destruct (Py.int (Py.strip maxline)) as [e2|mv] eqn:E2; simpl; [|discriminate].
    intros [= <-]. now apply int_error_kind in E2.
Qed.

Lemma find_top_error_kind (alpha : list (list Z)) (x d : Z) (ys : list Z)
    (e : Py.exn) :
  Fast.find_top alpha x ys d = inl e -> e = Py.IndexError.
Proof.
  induction ys as [|y ys IH]; simpl; [discriminate|].
  destruct (Py.getitem alpha y) as [e1|row] eqn:G1; simpl.
  - intros [= <-]. now apply getitem_error_kind in G1.
  - destruct (Py.getitem row x) as [e2|a] eqn:G2; simpl.
    + intros [= <-]. now apply getitem_error_kind in G2.
    + destruct (a >? Fast.ALPHA_THRESHOLD); [discriminate|exact IH].
Qed.

Lemma heightmap_error_kind (w h : Z) (pixels : list Byte.byte) (e : Py.exn) :
  Fast.heightmap w h pixels = inl e -> e = Py.IndexError.
Proof.
  unfold Fast.heightmap.
  destruct (Fast.build_alpha w h pixels) as [e1|alpha] eqn:B; simpl.
  - intros [= <-]. unfold Fast.build_alpha in B.
    apply mapM_error_kind with (e0 := Py.IndexError) in B; [assumption|].
    intros y e' _ Hrow.
    apply mapM_error_kind with (e0 := Py.IndexError) in Hrow; [assumption|].
    intros x e'' _. apply byte_at_error_kind.
  - generalize (@nil (Z * Z)).
    induction (Py.range_step 0 w Fast.SAMPLE_INTERVAL) as [|x xs IH];
      intros hm; simpl; [discriminate|].
    destruct (Fast.find_top alpha x (Py.range h) (h - 1)) as [e1|t] eqn:T; simpl.
    + intros [= <-]. now apply find_top_error_kind in T.
    + apply IH.
Qed.

(** X19.  [main] of extract_bounds_fast.py fails in two ways only: with a
    [ValueError] (a header that does not parse, or no column to take the
    minimum of) or with an [IndexError] (too few bytes of pixel data). *)
Theorem fast_main_errors (f : list Byte.byte) (e : Py.exn) :
  Fast.main f = inl e -> e = Py.ValueError \/ e = Py.IndexError.
Proof.
  unfold Fast.main.
  destruct (Fast.read_header f) as [e1|[[[w h] mv] pixels]] eqn:Hh; simpl.
  - intros [= <-]. left. now apply read_header_error_kind in Hh.
  - destruct (Fast.heightmap w h pixels) as [e2|hm] eqn:Hm; simpl.
    + intros [= <-]. right. now apply heightmap_error_kind in Hm.
    + destruct (stats (map snd hm)) as [e3|st] eqn:Hs; simpl; [|discriminate].
      intros [= <-]. left. now apply stats_error_kind in Hs.
Qed.

Lemma fast_main_errors_witness :
  Py.ValueError = Py.ValueError \/ Py.ValueError = Py.IndexError.
Proof. apply (fast_main_errors [] Py.ValueError). reflexivity. Defined.

Lemma fast_no_columns (w h : Z) (pixels : list Byte.byte) :
  w <= 0 -> Fast.heightmap w h pixels = inr [].
Proof.
  intros Hw. unfold Fast.heightmap.
  assert (Hbuild : exists alpha, Fast.build_alpha w h pixels = inr alpha).
  { unfold Fast.build_alpha. apply mapM_total.
    intros y _. rewrite (range_nonpos w Hw). now exists []. }
  destruct Hbuild as [alpha Ha]. rewrite Ha. cbn [Py.bind].
  unfold Py.range_step, Fast.SAMPLE_INTERVAL.
  replace (Z.to_nat ((w - 0 + 10 - 1) / 10)) with 0%nat; [reflexivity|].
  assert ((w - 0 + 10 - 1) / 10 < 1) by (apply Z.div_lt_upper_bound; lia).
  lia.
Qed.



(** X21.  After a header whose width is zero or negative no column is
    sampled, and [main] stops with the [ValueError] of [min] on the empty
    dict. *)
Theorem fast_main_no_columns (f : list Byte.byte) (w h mv : Z)
    (pixels : list Byte.byte) :
  Fast.read_header f = inr (w, h, mv, pixels) ->
  w <= 0 ->
  Fast.main f = inl Py.ValueError.
Proof.
  intros Hh Hw. unfold Fast.main. rewrite Hh. cbn [Py.bind].
  now rewrite (fast_no_columns w h pixels Hw).
Qed.

Lemma fast_main_no_columns_witness :
  Fast.main Inputs.empty_width_pgm = inl Py.ValueError.
Proof.
  apply (fast_main_no_columns Inputs.empty_width_pgm 0 3 255 []).
  - reflexivity.
  - lia.
Defined.

(** *** Comment lines *)

Lemma readline_shorter (f line rest : list Byte.byte) :
  Py.readline f = (line, rest) ->
  (f = [] /\ line = [] /\ rest = []) \/ (length rest < length f)%nat.
Proof.
  revert line rest. induction f as [|b f IH]; intros line rest; simpl.
  - intros [= <- <-]. now left.
  - destruct (Byte.eqb b Byte.x0a).
    + intros [= <- <-]. right. lia.
    + destruct (Py.readline f) as [l r] eqn:E. intros [= <- <-]. right.
      destruct (IH l r eq_refl) as [[-> [_ ->]]|H]; simpl; lia.
Qed.

Lemma skip_comments_stop (fuel : nat) (line f : list Byte.byte) :
  Py.startswith_hash line = false -> Fast.skip_comments fuel line f = (line, f).
Proof. intros H. destruct fuel; simpl; [reflexivity|now rewrite H]. Qed.

(** The loop is over before the fuel is: more of it changes nothing. *)
Lemma skip_comments_fuel (fuel1 fuel2 : nat) (line f : list Byte.byte) :
  (length f < fuel1)%nat -> (length f < fuel2)%nat ->
  Fast.skip_comments fuel1 line f = Fast.skip_comments fuel2 line f.
Proof.
  revert fuel2 line f. induction fuel1 as [|n1 IH]; intros fuel2 line f H1 H2; [lia|].
  destruct fuel2 as [|n2]; [lia|]. simpl.
  destruct (Py.startswith_hash line); [|reflexivity].
  destruct (Py.readline f) as [line' f'] eqn:E.
  destruct (readline_shorter f line' f' E) as [[-> [-> ->]]|Hlt].
  - now rewrite !skip_comments_stop.
  - apply IH; lia.
Qed.

Lemma readline_comment (c rest : list Byte.byte) :
  ~ In Byte.x0a c ->
  Py.readline (Byte.x23 :: c ++ Byte.x0a :: rest) =
  (Byte.x23 :: c ++ [Byte.x0a], rest).
Proof.
  intros Hc. rewrite app_comm_cons, readline_line; [reflexivity|].
  intros [H|H]; [discriminate H|contradiction].
Qed.

Section Header.

(** A comment line with text [c]. *)
Let comment (c : list Byte.byte) : list Byte.byte := Byte.x23 :: c ++ [Byte.x0a].

Variable dims : list Byte.byte.
Hypothesis dims_line : ~ In Byte.x0a dims.
Hypothesis dims_not_comment : Py.startswith_hash dims = false.

Lemma dims_line_not_comment : Py.startswith_hash (dims ++ [Byte.x0a]) = false.
Proof. destruct dims; [reflexivity|exact dims_not_comment]. Qed.

Lemma skip_comments_run (cs : list (list Byte.byte)) :
  Forall (fun c => ~ In Byte.x0a c) cs ->
  forall (fuel : nat) (c : list Byte.byte) (tail : list Byte.byte),
  (length cs < fuel)%nat ->
  Fast.skip_comments fuel (comment c)
    (concat (map comment cs) ++ dims ++ Byte.x0a :: tail) = (dims ++ [Byte.x0a], tail).
Proof.
  induction 1 as [|c' cs Hc' Hcs IH]; intros fuel c tail Hfuel.
  - destruct fuel as [|n]; [simpl in Hfuel; lia|]. simpl.
    rewrite (readline_line dims tail dims_line).
    apply skip_comments_stop, dims_line_not_comment.
  - destruct fuel as [|n]; [simpl in Hfuel; lia|].
    cbn [Fast.skip_comments Py.startswith_hash comment].
    change (Byte.eqb Byte.x23 Byte.x23) with true. cbv iota.
    assert (E : concat (map comment (c' :: cs)) ++ dims ++ Byte.x0a :: tail =
                Byte.x23 :: c' ++ Byte.x0a ::
                  (concat (map comment cs) ++ dims ++ Byte.x0a :: tail)).
    { cbn [map concat]. unfold comment at 1.
      rewrite <- app_assoc. cbn [app]. now rewrite <- app_assoc. }
    rewrite E, (readline_comment c' _ Hc').
    apply IH. simpl in Hfuel. lia.
Qed.

Lemma first_dims_line (cs : list (list Byte.byte)) (tail : list Byte.byte) :
  Forall (fun c => ~ In Byte.x0a c) cs ->
  let f1 := concat (map comment cs) ++ dims ++ Byte.x0a :: tail in
  Fast.skip_comments (S (length (snd (Py.readline f1))))
    (fst (Py.readline f1)) (snd (Py.readline f1)) = (dims ++ [Byte.x0a], tail).
Proof.
  intros Hcs. destruct Hcs as [|c cs Hc Hcs]; cbn zeta.
  - cbn [map concat app]. rewrite (readline_line dims tail dims_line).
    apply skip_comments_stop, dims_line_not_comment.
  - assert (E : concat (map comment (c :: cs)) ++ dims ++ Byte.x0a :: tail =
                Byte.x23 :: c ++ Byte.x0a ::
                  (concat (map comment cs) ++ dims ++ Byte.x0a :: tail)).
    { cbn [map concat]. unfold comment at 1.
      rewrite <- app_assoc. cbn [app]. now rewrite <- app_assoc. }
    rewrite E, (readline_comment c _ Hc).
    cbn [fst snd]. apply (skip_comments_run cs Hcs).
    rewrite length_app.
    assert (length cs <= length (concat (map comment cs)))%nat; [|lia].
    clear. induction cs as [|c cs IH]; simpl; [lia|].
    rewrite length_app. lia.
Qed.

End Header.

(** X22.  The reader accepts a file made of a first line, any number of
    comment lines (starting with [#]), a line with the two dimensions, a
    line with the maximal value, and the pixel bytes: it returns the
    dimensions and the maximal value as these two lines parse, and
    everything after the fourth line as the pixels.  The first line can be
    anything. *)
Theorem read_header_pgm (magic dims maxline pixels : list Byte.byte)
    (comments : list (list Byte.byte)) (w h mv : Z) :
  ~ In Byte.x0a magic ->
  Forall (fun c => ~ In Byte.x0a c) comments ->
  ~ In Byte.x0a dims ->
  Py.startswith_hash dims = false ->
  ~ In Byte.x0a maxline ->
  Fast.parse_dims (dims ++ [Byte.x0a]) = inr (w, h) ->
  Py.int (Py.strip (maxline ++ [Byte.x0a])) = inr mv ->
  Fast.read_header
    (magic ++ Byte.x0a ::
     concat (map (fun c => Byte.x23 :: c ++ [Byte.x0a]) comments) ++
     dims ++ Byte.x0a :: maxline ++ Byte.x0a :: pixels)
  = inr (w, h, mv, pixels).
Proof.
  intros Hmagic Hcs Hdims Hnc Hmax Hparse Hint.
  unfold Fast.read_header. rewrite (readline_line magic _ Hmagic).
  pose proof (first_dims_line dims Hdims Hnc comments
                (maxline ++ Byte.x0a :: pixels) Hcs) as Hskip.
  cbn zeta in Hskip.
  destruct (Py.readline _) as [line f2]. cbn [fst snd] in Hskip.
  rewrite Hskip, Hparse. cbn [Py.bind].
  rewrite (readline_line maxline pixels Hmax), Hint. reflexivity.
Qed.

Lemma read_header_pgm_witness :
  Fast.read_header
    ([Byte.x50; Byte.x35] ++ Byte.x0a ::
     concat (map (fun c => Byte.x23 :: c ++ [Byte.x0a])
                 [[Byte.x20; Byte.x68; Byte.x69]]) ++
     [Byte.x32; Byte.x20; Byte.x33] ++ Byte.x0a ::
     [Byte.x32; Byte.x35; Byte.x35] ++ Byte.x0a :: Inputs.tiny_pgm_pixels)
  = inr (2, 3, 255, Inputs.tiny_pgm_pixels).
Proof.
  apply (read_header_pgm [Byte.x50; Byte.x35] [Byte.x32; Byte.x20; Byte.x33]
           [Byte.x32; Byte.x35; Byte.x35] Inputs.tiny_pgm_pixels
           [[Byte.x20; Byte.x68; Byte.x69]] 2 3 255).
  - simpl. intuition discriminate.
  - constructor; [|constructor]. simpl. intuition discriminate.
  - simpl. intuition discriminate.
  - reflexivity.
  - simpl. intuition discriminate.
  - reflexivity.
  - reflexivity.
Defined.

(** X23.  The first line of the file, where the format's magic number
    stands, has no influence on what [main] does. *)
Theorem fast_magic_ignored (magic1 magic2 rest : list Byte.byte) :
  ~ In Byte.x0a magic1 -> ~ In Byte.x0a magic2 ->
  Fast.main (magic1 ++ Byte.x0a :: rest) = Fast.main (magic2 ++ Byte.x0a :: rest).
Proof.
  intros H1 H2. unfold Fast.main, Fast.read_header.
  now rewrite (readline_line magic1 rest H1), (readline_line magic2 rest H2).
Qed.

Lemma fast_magic_ignored_witness :
  Fast.main ([Byte.x50; Byte.x35] ++ Byte.x0a :: [Byte.x31; Byte.x0a]) =
  Fast.main ([Byte.x50; Byte.x32] ++ Byte.x0a :: [Byte.x31; Byte.x0a]).
Proof.
  apply (fast_magic_ignored [Byte.x50; Byte.x35] [Byte.x50; Byte.x32]
           [Byte.x31; Byte.x0a]).
  - simpl. intuition discriminate.
  - simpl. intuition discriminate.
Defined.

(** ** More on extract_bounds.py *)

Section SimpleColumns.

Variable get_pixel_alpha : Z -> Z -> Q.

Let above (x y : Z) : bool := negb (Qle_bool (get_pixel_alpha x y) (1 # 2)).

Lemma above_true (x y : Z) : above x y = true <-> (1 # 2 < get_pixel_alpha x y)%Q.
Proof.
  unfold above. rewrite negb_true_iff. split.
  - intros H. apply Qnot_le_lt. intros Hle.
    apply Qle_bool_iff in Hle. congruence.
  - intros H. destruct (Qle_bool _ _) eqn:E; [|reflexivity].
    apply Qle_bool_iff in E. exfalso. exact (Qlt_not_le _ _ H E).
Qed.

Lemma above_false (x y : Z) : above x y = false <-> (get_pixel_alpha x y <= 1 # 2)%Q.
Proof. unfold above. rewrite negb_false_iff. apply Qle_bool_iff. Qed.

Lemma scan_down_first (x y : Z) (before after : list Z) :
  (forall y', In y' before -> above x y' = false) ->
  above x y = true ->
  Simple.scan_down get_pixel_alpha x (before ++ y :: after) = Some y.
Proof.
  intros Hbefore Hy. induction before as [|b before IH]; simpl.
  - fold (above x y). now rewrite Hy.
  - fold (above x b). rewrite (Hbefore b) by now left.
    apply IH. intros y' Hy'. apply Hbefore. now right.
Qed.

(** The row reported for a column: its first row with alpha above one half,
    or the bottom row when it has none. *)
Lemma find_top_opaque_pixel_spec (x : Z) :
  let t := Simple.find_top_opaque_pixel get_pixel_alpha x in
  (forall r, 0 <= r < t -> above x r = false) /\
  ((0 <= t < Simple.HEIGHT /\ above x t = true) \/
   (t = Simple.HEIGHT - 1 /\
    forall r, 0 <= r < Simple.HEIGHT -> above x r = false)).
Proof.
  cbn zeta. unfold Simple.find_top_opaque_pixel.
  destruct (existsb (above x) (Py.range Simple.HEIGHT)) eqn:E.
  - apply existsb_exists in E. destruct E as [r [Hr Br]]. apply in_range in Hr.
    destruct (least_true (above x) r) as [m [Hm [Bm Hleast]]]; [lia|assumption|].
    assert (Hm' : 0 <= m < Simple.HEIGHT) by lia.
    destruct (range_split Simple.HEIGHT m Hm') as [after [-> _]].
    rewrite scan_down_first; [| |assumption].
    + split; [exact Hleast|]. left. auto.
    + intros y' Hy'. apply in_range in Hy'. now apply Hleast.
  - assert (Hnone : forall r, 0 <= r < Simple.HEIGHT -> above x r = false).
    { intros r Hr. destruct (above x r) eqn:Br; [|reflexivity].
      assert (existsb (above x) (Py.range Simple.HEIGHT) = true); [|congruence].
      apply existsb_exists. exists r. split; [now apply in_range|assumption]. }
    rewrite scan_down_none.
    + split; [|right; auto]. intros r Hr. apply Hnone. unfold Simple.HEIGHT in *. lia.
    + intros y Hy. apply in_range in Hy. now apply Hnone.
Qed.

End SimpleColumns.

(** X24.  Whatever the image, the dict of extract_bounds.py has 64
    entries, with the keys 0, 10, ..., 630 in this order. *)
Theorem simple_coverage (get_pixel_alpha : Z -> Z -> Q) :
  map fst (Simple.heightmap get_pixel_alpha) =
  map (fun i => 10 * Z.of_nat i) (seq 0 64).
Proof. rewrite simple_keys. reflexivity. Qed.

(** X25.  Every entry [(x, y)] of that dict belongs to a sampled column of
    the 640 x 384 grid; above row [y] no alpha of the column exceeds one
    half; and either the alpha of row [y] does, or [y] is the bottom row
    383 and no alpha of the column does. *)
Theorem simple_entry_topmost (get_pixel_alpha : Z -> Z -> Q) (x y : Z) :
  In (x, y) (Simple.heightmap get_pixel_alpha) ->
  (0 <= x < 640 /\ x mod 10 = 0) /\
  (forall r, 0 <= r < y -> (get_pixel_alpha x r <= 1 # 2)%Q) /\
  ((0 <= y < 384 /\ (1 # 2 < get_pixel_alpha x y)%Q) \/
   (y = 383 /\ forall r, 0 <= r < 384 -> (get_pixel_alpha x r <= 1 # 2)%Q)).
Proof.
  intros Hin. apply simple_entry in Hin. destruct Hin as [Hx ->].
  apply in_range_step in Hx; [|reflexivity]. split; [exact Hx|].
  destruct (find_top_opaque_pixel_spec get_pixel_alpha x) as [Habove Hcase].
  split.
  - intros r Hr. apply above_false. now apply Habove.
  - destruct Hcase as [[Ht Hb]|[Ht Hnone]].
    + left. split; [exact Ht|]. now apply above_true.
    + right. split; [exact Ht|]. intros r Hr. apply above_false. now apply Hnone.
Qed.

Lemma simple_entry_topmost_witness :
  (0 <= 0 < 640 /\ 0 mod 10 = 0) /\
  (forall r : Z, 0 <= r < 383 -> (0 <= 1 # 2)%Q) /\
  ((0 <= 383 < 384 /\ (1 # 2 < 0)%Q) \/
   (383 = 383 /\ forall r : Z, 0 <= r < 384 -> (0 <= 1 # 2)%Q)).
Proof.
  apply (simple_entry_topmost (fun _ _ => 0%Q) 0 383).
  vm_compute. left. reflexivity.
Defined.


(** ** The alpha read from ImageMagick's answer *)

Module AlphaText.

Import Ascii String.

Lemma prefix_app (needle s t : string) :
  prefix needle s = true -> prefix needle (s ++ t)%string = true.
Proof.
  revert s. induction needle as [|c needle IH]; intros s.
  - intros _. destruct (s ++ t)%string; reflexivity.
  - destruct s as [|c' s]; simpl; [discriminate|].
    destruct (ascii_dec c c'); [apply IH|discriminate].
Qed.

Lemma contains_app (needle s t : string) :
  Simple.contains needle s = true -> Simple.contains needle (s ++ t)%string = true.
Proof.
  induction s as [|c s IH]; cbn [Simple.contains append].
  - intros H. destruct needle; [|discriminate H].
    destruct t; reflexivity.
  - intros H. apply orb_true_iff in H. apply orb_true_iff.
    destruct H as [H|H]; [left|right; now apply IH].
    exact (prefix_app needle (String c s) t H).
Qed.

(** A text without the separator is not split. *)
Lemma split_on_whole (sep : ascii) (a : string) :
  ~ In sep (list_ascii_of_string a) -> Simple.split_on sep a = [a].
Proof.
  induction a as [|c a IH]; simpl; intros Hno; [reflexivity|].
  destruct (Ascii.eqb c sep) eqn:E.
  - apply Ascii.eqb_eq in E. subst. exfalso. apply Hno. now left.
  - rewrite IH; [reflexivity|]. intros H. apply Hno. now right.
Qed.

(** The last piece of a split is what follows the last separator. *)
Lemma split_on_last (sep : ascii) (pre a : string) :
  ~ In sep (list_ascii_of_string a) ->
  exists h t, Simple.split_on sep (pre ++ String sep a)%string = h :: t /\
              t <> [] /\ last t EmptyString = a.
Proof.
  intros Hno. induction pre as [|c pre IH]; simpl.
  - rewrite Ascii.eqb_refl, (split_on_whole sep a Hno).
    exists EmptyString, [a]. split; [reflexivity|]. split; [discriminate|reflexivity].
  - destruct IH as [h [t [-> [Ht Hlast]]]].
    destruct (Ascii.eqb c sep).
    + exists EmptyString, (h :: t). split; [reflexivity|].
      split; [discriminate|]. destruct t; [congruence|exact Hlast].
    + exists (String c h), t. auto.
Qed.

Lemma rstrip_char_closed (c : ascii) (a : string) :
  ~ In c (list_ascii_of_string a) ->
  Simple.rstrip_char c (a ++ String c EmptyString)%string = a.
Proof.
  induction a as [|c' a IH]; simpl; intros Hno.
  - now rewrite Ascii.eqb_refl.
  - rewrite IH by (intros H; apply Hno; now right).
    destruct a; [|reflexivity].
    destruct (Ascii.eqb c' c) eqn:E; [|reflexivity].
    apply Ascii.eqb_eq in E. subst. exfalso. apply Hno. now left.
Qed.

Lemma strip_char_closed (c : ascii) (a : string) :
  ~ In c (list_ascii_of_string a) ->
  Simple.strip_char c (a ++ String c EmptyString)%string = a.
Proof.
  intros Hno. unfold Simple.strip_char.
  destruct a as [|c' a]; simpl.
  - now rewrite Ascii.eqb_refl.
  - destruct (Ascii.eqb c' c) eqn:E.
    + apply Ascii.eqb_eq in E. subst. exfalso. apply Hno. now left.
    + apply (rstrip_char_closed c (String c' a) Hno).
Qed.

Section Parse.

Variable F : Type.
Variable float : string -> Py.result F.
Variable zero : F.

(** X27.  From an answer that mentions [rgba] and ends in [,a)], where [a]
    has neither comma nor closing parenthesis, the alpha handed to [float]
    is [a]: the last component, whatever stands before it. *)
Theorem parse_alpha_last_component (pre a : string) :
  Simple.contains "rgba" pre = true ->
  ~ In ","%char (list_ascii_of_string a) ->
  ~ In ")"%char (list_ascii_of_string a) ->
  Simple.parse_alpha F float zero (pre ++ "," ++ a ++ ")")%string = float a.
Proof.
  intros Hrgba Hcomma Hclose. unfold Simple.parse_alpha.
  rewrite (contains_app _ pre _ Hrgba).
  destruct (split_on_last ","%char pre (a ++ ")")%string) as [h [t [Hs [Ht Hlast]]]].
  - intros Hin. clear - Hin Hcomma. induction a as [|c a IH]; simpl in *.
    + destruct Hin as [Hin|[]]. discriminate Hin.
    + destruct Hin as [Hin|Hin]; [apply Hcomma; now left|].
      apply IH; [|assumption]. intros H. apply Hcomma. now right.
  - change ("," ++ a ++ ")")%string with (String ","%char (a ++ ")"))%string.
    rewrite Hs. replace (last (h :: t) EmptyString) with (a ++ ")")%string.
    + now rewrite (strip_char_closed ")"%char a Hclose).
    + destruct t; [congruence|]. now rewrite <- Hlast.
Qed.

(** An answer that does not mention [rgba] counts as alpha zero, and
    [float] is not consulted. *)
Lemma parse_alpha_without_rgba (float' : string -> Py.result F)
    (pixel_data : string) :
  Simple.contains "rgba" pixel_data = false ->
  Simple.parse_alpha F float zero pixel_data = inr zero /\
  Simple.parse_alpha F float' zero pixel_data =
  Simple.parse_alpha F float zero pixel_data.
Proof.
  intros H. unfold Simple.parse_alpha. now rewrite H.
Qed.

End Parse.

Lemma parse_alpha_last_component_witness :
  Simple.parse_alpha string (fun s => inr s) ""%string
    ("srgba(12,34,56" ++ "," ++ "0.75" ++ ")")%string = inr "0.75"%string.
Proof.
  apply (parse_alpha_last_component string (fun s => inr s) ""%string
           "srgba(12,34,56"%string "0.75"%string).
  - reflexivity.
  - simpl. intuition discriminate.
  - simpl. intuition discriminate.
Defined.

Lemma parse_alpha_without_rgba_witness :
  Simple.parse_alpha Q (fun _ => inl Py.ValueError) 0%Q "srgb(1,2,3)"%string
    = inr 0%Q /\
  Simple.parse_alpha Q (fun _ => inr 1%Q) 0%Q "srgb(1,2,3)"%string =
  Simple.parse_alpha Q (fun _ => inl Py.ValueError) 0%Q "srgb(1,2,3)"%string.
Proof.
  apply (parse_alpha_without_rgba Q (fun _ => inl Py.ValueError) 0%Q
           (fun _ => inr 1%Q) "srgb(1,2,3)"%string).
  reflexivity.
Defined.

(** X28.  When ImageMagick's answers for a column never mention [rgba] (an
    image without alpha channel answers [srgb(...)]), every alpha of the
    column is read as zero and the column is reported at the bottom row
    383. *)
Theorem simple_column_without_alpha
    (float : string -> Py.result Q) (answer : Z -> Z -> string)
    (get_pixel_alpha : Z -> Z -> Q) (x : Z) :
  (forall y, 0 <= y < Simple.HEIGHT ->
     Simple.parse_alpha Q float 0%Q (answer x y) = inr (get_pixel_alpha x y)) ->
  (forall y, 0 <= y < Simple.HEIGHT ->
     Simple.contains "rgba" (answer x y) = false) ->
  Simple.find_top_opaque_pixel get_pixel_alpha x = 383.
Proof.
  intros Hparse Hno.
  apply (simple_all_transparent get_pixel_alpha x).
  intros y Hy. specialize (Hparse y Hy). specialize (Hno y Hy).
  unfold Simple.parse_alpha in Hparse. rewrite Hno in Hparse.
  injection Hparse as <-. discriminate.
Qed.

Lemma simple_column_without_alpha_witness :
  Simple.find_top_opaque_pixel (fun _ _ => 0%Q) 7 = 383.
Proof.
  apply (simple_column_without_alpha (fun _ => inr 1%Q)
           (fun _ _ => "srgb(9,9,9)"%string) (fun _ _ => 0%Q) 7).
  - intros y Hy. reflexivity.
  - intros y Hy. reflexivity.
Defined.

End AlphaText.

(** ** The dimension line *)

Lemma split_from_token (tw cur rest : list Byte.byte) :
  Forall (fun b => Py.isspace b = false) tw ->
  Py.split_from cur (tw ++ rest) = Py.split_from (rev tw ++ cur) rest.
Proof.
  intros Htw. revert cur. induction Htw as [|b tw Hb _ IH]; intros cur; simpl.
  - reflexivity.
  - rewrite Hb, IH, <- app_assoc. reflexivity.
Qed.

Lemma split_two_tokens (tw th : list Byte.byte) (sp : Byte.byte) :
  tw <> [] -> th <> [] ->
  Forall (fun b => Py.isspace b = false) tw ->
  Forall (fun b => Py.isspace b = false) th ->
  Py.isspace sp = true ->
  Py.split (tw ++ sp :: th ++ [Byte.x0a]) = [tw; th].
Proof.
  intros Hw Hh Htw Hth Hsp. unfold Py.split.
  rewrite (split_from_token tw [] _ Htw), app_nil_r.
  cbn [Py.split_from]. rewrite Hsp.
  assert (Hrw : rev tw <> []).
  { intros E. apply Hw. rewrite <- (rev_involutive tw), E. reflexivity. }
  destruct (rev tw) as [|b r] eqn:E; [congruence|]. rewrite <- E, rev_involutive.
  rewrite (split_from_token th [] _ Hth), app_nil_r.
  cbn [Py.split_from Py.isspace].
  assert (Hrh : rev th <> []).
  { intros E'. apply Hh. rewrite <- (rev_involutive th), E'. reflexivity. }
  destruct (rev th) as [|b' r'] eqn:E'; [congruence|].
  now rewrite <- E', rev_involutive.
Qed.

Lemma int_nonempty (s : list Byte.byte) (v : Z) : Py.int s = inr v -> s <> [].
Proof. intros H ->. discriminate H. Qed.

(** X29.  A dimension line made of two tokens without whitespace, a
    whitespace byte between them and the newline gives the two integers
    the tokens denote. *)
Theorem parse_dims_tokens (tw th : list Byte.byte) (sp : Byte.byte) (w h : Z) :
  Forall (fun b => Py.isspace b = false) tw ->
  Forall (fun b => Py.isspace b = false) th ->
  Py.isspace sp = true ->
  Py.int tw = inr w ->
  Py.int th = inr h ->
  Fast.parse_dims (tw ++ sp :: th ++ [Byte.x0a]) = inr (w, h).
Proof.
  intros Htw Hth Hsp Hw Hh. unfold Fast.parse_dims.
  rewrite (split_two_tokens tw th sp
             (int_nonempty tw w Hw) (int_nonempty th h Hh) Htw Hth Hsp).
  now rewrite Hw, Hh.
Qed.

Lemma parse_dims_tokens_witness :
  Fast.parse_dims ([Byte.x36; Byte.x34; Byte.x30] ++ Byte.x20 ::
                   [Byte.x33; Byte.x38; Byte.x34] ++ [Byte.x0a])
  = inr (640, 384).
Proof.
  apply (parse_dims_tokens [Byte.x36; Byte.x34; Byte.x30]
           [Byte.x33; Byte.x38; Byte.x34] Byte.x20 640 384).
  - repeat constructor.
  - repeat constructor.
  - reflexivity.
  - reflexivity.
  - reflexivity.
Defined.
